(** * The AI_Review fixtures: [unsafe_c_code.c] and [test_cpp_issues.cpp]

    The repository holds two deliberately unsafe programs.  This development
    embeds them twice:

    - as programs, over a small model of the C abstract machine (a store of
      bounded blocks, the two standard streams, 32-bit [int]) in which every
      act the language leaves undefined is an explicit [Fault];
    - as texts, byte for byte, so that the conditions of the defect rules the
      specification lists can be evaluated at the places the fixtures plant. *)

From Stdlib Require Import ZArith List Ascii String Bool Lia DecimalString.
From stdpp Require Import base list.
Import ListNotations.

Local Open Scope Z_scope.

(** ** Bytes *)

Module Bytes.

Definition bytes := list ascii.

Definition of_string (s : string) : bytes := list_ascii_of_string s.

Definition NUL : ascii := Ascii.zero.
Definition LF : ascii := ascii_of_nat 10.
Definition DQ : ascii := ascii_of_nat 34.
Definition SQ : ascii := ascii_of_nat 39.
Definition BSL : ascii := ascii_of_nat 92.

Fixpoint eqb_bytes (a b : bytes) : bool :=
  match a, b with
  | [], [] => true
  | x :: a', y :: b' => Ascii.eqb x y && eqb_bytes a' b'
  | _, _ => false
  end.

(** [s] occurs in [l] as a contiguous run. *)
Definition occurs_in (s l : bytes) : Prop :=
  exists pre post, l = (pre ++ s ++ post)%list.

Definition escape_value (e : ascii) : ascii :=
  if Ascii.eqb e "n" then LF
  else if Ascii.eqb e "t" then ascii_of_nat 9
  else if Ascii.eqb e "r" then ascii_of_nat 13
  else if Ascii.eqb e "0" then NUL
  else e.

(** The value of a C string literal whose source spelling is [s]: each
    simple escape sequence is replaced by the byte it stands for.  [esc]
    records that the previous byte was an unescaped backslash. *)
Fixpoint unescape_from (esc : bool) (s : bytes) : bytes :=
  match s with
  | [] => []
  | c :: rest =>
      if esc then escape_value c :: unescape_from false rest
      else if Ascii.eqb c BSL then unescape_from true rest
      else c :: unescape_from false rest
  end.

Definition unescape (s : bytes) : bytes := unescape_from false s.

(** A literal of the source, as the [char] array the compiler makes of it
    (without the terminating null). *)
Definition lit (s : string) : bytes := unescape (of_string s).

End Bytes.

Import Bytes.

(** ** The abstract machine

    A block is an array of bytes of fixed capacity; a byte that was never
    written is [None].  The store is a list of blocks, indexed by allocation
    order; a block whose lifetime has ended is [None].  Pointers of the two
    programs always point to the start of a block (neither program does
    pointer arithmetic), so a pointer is null or a block index.

    The allocator hands out at most [w_avail] further bytes: [malloc]
    returns a null pointer once the budget is exceeded, as the C standard
    allows it to at any call. *)

Module Machine.

Abbreviation block := (list (option ascii)).

Inductive ptr : Type :=
| NULL
| Ptr (b : nat).

Inductive fault : Type :=
| DivisionByZero
| SignedOverflow
| BufferOverflow
| BufferOverread
| UninitializedRead
| NullDereference
| DanglingPointer
| FormatMismatch
| ConversionOverflow.

Record world : Type := World {
  w_stdin : bytes;
  w_stdout : bytes;
  w_mem : list (option block);
  w_avail : nat;
  w_shell : list bytes
}.

Inductive outcome (A : Type) : Type :=
| Done (a : A) (w : world)
| Fault (f : fault) (w : world).

Arguments Done {A} a w.
Arguments Fault {A} f w.

Definition M (A : Type) : Type := world -> outcome A.

Definition ret {A} (a : A) : M A := fun w => Done a w.

Definition bind {A B} (m : M A) (k : A -> M B) : M B :=
  fun w =>
    match m w with
    | Done a w' => k a w'
    | Fault f w' => Fault f w'
    end.

Definition raise {A} (f : fault) : M A := fun w => Fault f w.

(** The world in which a run ended, normally or not: what was written to the
    standard output up to a fault has been written. *)
Definition final_world {A} (o : outcome A) : world :=
  match o with
  | Done _ w => w
  | Fault _ w => w
  end.

Definition set_stdin (i : bytes) (w : world) : world :=
  World i (w_stdout w) (w_mem w) (w_avail w) (w_shell w).

Definition set_stdout (o : bytes) (w : world) : world :=
  World (w_stdin w) o (w_mem w) (w_avail w) (w_shell w).

Definition set_mem (m : list (option block)) (w : world) : world :=
  World (w_stdin w) (w_stdout w) m (w_avail w) (w_shell w).

(** A process starts with its input on the standard input, nothing written,
    an empty store and [budget] bytes of heap. *)
Definition initial_world (input : bytes) (budget : nat) : world :=
  World input [] [] budget [].

End Machine.

(** ** The library routines the fixtures call

    Each routine is modelled on its description in the C standard; the cases
    the standard leaves undefined are the faults. *)

Module Libc.
Import Machine.

Notation "x <- c1 ;; c2" := (bind c1 (fun x => c2))
  (at level 100, c1 at next level, right associativity).
Notation "c1 ;; c2" := (bind c1 (fun _ => c2))
  (at level 100, right associativity).

(** *** [int] *)

Definition INT_MIN : Z := - 2 ^ 31.
Definition INT_MAX : Z := 2 ^ 31 - 1.

Definition in_int (z : Z) : Prop := INT_MIN <= z <= INT_MAX.

Definition in_intb (z : Z) : bool := (INT_MIN <=? z) && (z <=? INT_MAX).

(** The operator [/] on [int]: the quotient truncated towards zero.  A zero
    divisor is undefined, and so is the one quotient that is not an [int]. *)
Definition int_div (a b : Z) : M Z :=
  if b =? 0 then raise DivisionByZero
  else if (a =? INT_MIN) && (b =? -1) then raise SignedOverflow
  else ret (Z.quot a b).

(** Reading a scalar object: an object that was never assigned has no value. *)
Definition rvalue {A} (v : option A) : M A :=
  match v with
  | Some a => ret a
  | None => raise UninitializedRead
  end.

(** *** Storage *)

Definition fresh_block (n : nat) : block := replicate n None.

Definition push_block (blk : block) (w : world) : world :=
  set_mem (w_mem w ++ [Some blk]) w.

(** [malloc n]: a fresh block of [n] indeterminate bytes, or a null pointer
    when the allocator cannot satisfy the request. *)
Definition malloc (n : nat) : M ptr :=
  fun w =>
    if (n <=? w_avail w)%nat then
      Done (Ptr (length (w_mem w)))
           (World (w_stdin w) (w_stdout w) (w_mem w ++ [Some (fresh_block n)])
                  (w_avail w - n) (w_shell w))
    else Done NULL w.

(** An array with automatic storage duration, [char a[n];]. *)
Definition local_array (n : nat) : M ptr :=
  fun w => Done (Ptr (length (w_mem w))) (push_block (fresh_block n) w).

(** An object defined with an initializer, [char a[n] = "...";]: the bytes
    of the literal, the rest zero. *)
Definition static_array (n : nat) (init : bytes) : M ptr :=
  fun w =>
    Done (Ptr (length (w_mem w)))
         (push_block (map Some (take n init) ++ replicate (n - length init) (Some NUL)) w).

(** The lifetime of an automatic array ends with its block. *)
Definition end_of_life (p : ptr) : M unit :=
  fun w =>
    match p with
    | NULL => Done tt w
    | Ptr b => Done tt (set_mem (<[b := None]> (w_mem w)) w)
    end.

Definition deref (p : ptr) : M block :=
  fun w =>
    match p with
    | NULL => Fault NullDereference w
    | Ptr b =>
        match w_mem w !! b with
        | Some (Some blk) => Done blk w
        | _ => Fault DanglingPointer w
        end
    end.

(** The string a block holds: the bytes before its first null byte. *)
Fixpoint cstring (blk : block) : fault + bytes :=
  match blk with
  | [] => inl BufferOverread
  | None :: _ => inl UninitializedRead
  | Some c :: rest =>
      if Ascii.eqb c NUL then inr []
      else match cstring rest with
           | inr s => inr (c :: s)
           | inl f => inl f
           end
  end.

Definition load_cstr (p : ptr) : M bytes :=
  blk <- deref p ;;
  match cstring blk with
  | inr s => ret s
  | inl f => raise f
  end.

Definition overwrite (off : nat) (bs : bytes) (blk : block) : block :=
  take off blk ++ map Some bs ++ drop (off + length bs) blk.

(** Writing [bs] at offset [off] of the block [p] points to.  A write that
    would end beyond the block is the overflow. *)
Definition store (p : ptr) (off : nat) (bs : bytes) : M unit :=
  blk <- deref p ;;
  fun w =>
    match p with
    | NULL => Fault NullDereference w
    | Ptr b =>
        if (off + length bs <=? length blk)%nat
        then Done tt (set_mem (<[b := Some (overwrite off bs blk)]> (w_mem w)) w)
        else Fault BufferOverflow w
    end.

(** A [const char *] argument: a literal of the program text, or a pointer. *)
Inductive chars : Type :=
| Lit (s : string)
| At (p : ptr).

Fixpoint until_nul (s : bytes) : bytes :=
  match s with
  | [] => []
  | c :: rest => if Ascii.eqb c NUL then [] else c :: until_nul rest
  end.

Definition read_chars (a : chars) : M bytes :=
  match a with
  | Lit s => ret (until_nul (lit s))
  | At p => load_cstr p
  end.

(** *** <string.h> *)

Definition strcpy (dst : ptr) (src : chars) : M ptr :=
  s <- read_chars src ;;
  store dst 0 (s ++ [NUL]) ;;
  ret dst.

Definition strcat (dst : ptr) (src : chars) : M ptr :=
  d <- load_cstr dst ;;
  s <- read_chars src ;;
  store dst (length d) (s ++ [NUL]) ;;
  ret dst.

(** *** <stdio.h> *)

Definition put (s : bytes) : M unit :=
  fun w => Done tt (set_stdout (w_stdout w ++ s) w).

Fixpoint take_line (i : bytes) : bytes :=
  match i with
  | [] => []
  | c :: rest => if Ascii.eqb c LF then [] else c :: take_line rest
  end.

Fixpoint after_line (i : bytes) : bytes :=
  match i with
  | [] => []
  | c :: rest => if Ascii.eqb c LF then rest else after_line rest
  end.

(** [gets s] reads up to a new-line or the end of the input, stores what it
    read (without the new-line) followed by a null byte, and knows nothing of
    the size of [s].  At the end of the input with nothing read it leaves
    the array alone and returns a null pointer. *)
Definition gets (s : ptr) : M ptr :=
  fun w =>
    match w_stdin w with
    | [] => Done NULL w
    | _ :: _ =>
        (store s 0 (take_line (w_stdin w) ++ [NUL]) ;; ret s)
          (set_stdin (after_line (w_stdin w)) w)
    end.

(** An argument of a formatted print, and its value once fetched. *)
Inductive arg : Type :=
| AInt (z : Z)
| AStr (s : chars).

Definition fetch (a : arg) : M (Z + bytes) :=
  match a with
  | AInt z => ret (inl z)
  | AStr s => v <- read_chars s ;; ret (inr v)
  end.

Fixpoint fetch_all (args : list arg) : M (list (Z + bytes)) :=
  match args with
  | [] => ret []
  | a :: rest => v <- fetch a ;; vs <- fetch_all rest ;; ret (v :: vs)
  end.

Definition decimal (z : Z) : bytes := of_string (NilZero.string_of_int (Z.to_int z)).

(** The expansion of a format: [%s], [%d] and [%%]; [pct] records that the
    previous byte was the [%] that opens a directive. *)
Fixpoint expand (pct : bool) (fmt : bytes) (vals : list (Z + bytes)) : option bytes :=
  match fmt with
  | [] => if pct then None else Some []
  | c :: rest =>
      if pct then
        if Ascii.eqb c "%" then option_map (cons c) (expand false rest vals)
        else if Ascii.eqb c "s" then
          match vals with
          | inr s :: vals' => option_map (app s) (expand false rest vals')
          | _ => None
          end
        else if Ascii.eqb c "d" then
          match vals with
          | inl z :: vals' => option_map (app (decimal z)) (expand false rest vals')
          | _ => None
          end
        else None
      else if Ascii.eqb c "%" then expand true rest vals
      else option_map (cons c) (expand false rest vals)
  end.

Definition format (fmt : string) (args : list arg) : M bytes :=
  vals <- fetch_all args ;;
  match expand false (until_nul (lit fmt)) vals with
  | Some out => ret out
  | None => raise FormatMismatch
  end.

Definition printf (fmt : string) (args : list arg) : M unit :=
  out <- format fmt args ;;
  put out.

(** [sprintf] writes the expansion and a null byte, and knows nothing of the
    size of [dst]. *)
Definition sprintf (dst : ptr) (fmt : string) (args : list arg) : M unit :=
  out <- format fmt args ;;
  store dst 0 (out ++ [NUL]).

Definition is_space (c : ascii) : bool :=
  let n := nat_of_ascii c in (n =? 32)%nat || ((9 <=? n)%nat && (n <=? 13)%nat).

Definition is_digit (c : ascii) : bool :=
  let n := nat_of_ascii c in (48 <=? n)%nat && (n <=? 57)%nat.

Fixpoint skip_space (i : bytes) : bytes :=
  match i with
  | [] => []
  | c :: rest => if is_space c then skip_space rest else i
  end.

Fixpoint digits (acc : Z) (i : bytes) : Z * bytes :=
  match i with
  | [] => (acc, [])
  | c :: rest =>
      if is_digit c then digits (10 * acc + Z.of_nat (nat_of_ascii c - 48)) rest
      else (acc, i)
  end.

(** The conversion [%d]: white space, an optional sign, decimal digits. *)
Definition scan_int (i : bytes) : option (Z * bytes) :=
  let i1 := skip_space i in
  let '(neg, i2) :=
    match i1 with
    | c :: r => if Ascii.eqb c "-" then (true, r)
                else if Ascii.eqb c "+" then (false, r) else (false, i1)
    | [] => (false, i1)
    end in
  match i2 with
  | d :: _ =>
      if is_digit d then
        let '(n, r) := digits 0 i2 in Some (if neg then - n else n, r)
      else None
  | [] => None
  end.

(** [scanf("%d %d", &x, &y)]: the numbers converted, in order; a matching
    failure ends the call and leaves the remaining objects as they were.  A
    number that is not an [int] is undefined. *)
Definition scanf_d_d : M (list Z) :=
  fun w =>
    match scan_int (w_stdin w) with
    | None => Done [] w
    | Some (a, i1) =>
        if in_intb a then
          match scan_int (skip_space i1) with
          | None => Done [a] (set_stdin (skip_space i1) w)
          | Some (b, i2) =>
              if in_intb b then Done [a; b] (set_stdin i2 w)
              else Fault ConversionOverflow (set_stdin i2 w)
          end
        else Fault ConversionOverflow (set_stdin i1 w)
    end.

(** *** <stdlib.h> *)

(** [system] hands the command to the host's command processor. *)
Definition system (cmd : chars) : M Z :=
  c <- read_chars cmd ;;
  fun w => Done 0 (World (w_stdin w) (w_stdout w) (w_mem w) (w_avail w) (w_shell w ++ [c])).

(** *** <iostream> *)

Definition cout_chars (s : chars) : M unit :=
  v <- read_chars s ;; put v.

Definition cout_string (s : bytes) : M unit := put s.

Definition cout_int (z : Z) : M unit := put (decimal z).

Definition endl : M unit := put [LF].

End Libc.

(** ** What the store holds *)

Module Contents.
Import Machine Libc.

Definition no_nul (s : bytes) : Prop := Forall (fun c => c <> NUL) s.

(** The block a pointer points to. *)
Definition block_at (w : world) (p : ptr) : option block :=
  match p with
  | NULL => None
  | Ptr b => match w_mem w !! b with
             | Some (Some blk) => Some blk
             | _ => None
             end
  end.

(** [p] points to a live block that holds the string [s]. *)
Definition holds (w : world) (p : ptr) (s : bytes) : Prop :=
  exists blk, block_at w p = Some blk /\ cstring blk = inr s.

(** The string a [const char *] argument stands for. *)
Definition chars_value (w : world) (data : chars) (s : bytes) : Prop :=
  match data with
  | Lit l => until_nul (lit l) = s
  | At p => holds w p s
  end.

(** What both query formats begin with. *)
Definition select_prefix : bytes := lit "SELECT * FROM users WHERE name = '".

(** The line [gets] is about to read. *)
Definition next_line (w : world) : bytes := take_line (w_stdin w).

End Contents.

(** ** [unsafe_c_code.c] *)

Module CFixture.
Import Machine Libc.

(** [char global_password[20] = "admin123";] *)
Definition global_password : M ptr := static_array 20 (lit "admin123").

Definition getUserInput (buffer : ptr) : M unit :=
  printf "Enter your name: " [] ;;
  gets buffer ;;
  ret tt.

Definition buildGreeting (name : ptr) : M ptr :=
  greet <- malloc 50 ;;
  strcpy greet (Lit "Hello ") ;;
  strcat greet (At name) ;;
  ret greet.

(** The format of line 24, as spelled. *)
Definition query_format : string := "SELECT * FROM users WHERE name = '%s';".

Definition queryDatabase (userInput : ptr) : M unit :=
  query <- local_array 200 ;;
  sprintf query query_format [AStr (At userInput)] ;;
  printf "Executing query: %s\n" [AStr (At query)] ;;
  end_of_life query.

Definition divide (a b : Z) : M Z := int_div a b.

(** The objects of [main]: [char name[10]; int x, y, result;] and, from
    line 41 on, [char *greeting]. *)
Record locals : Type := Locals {
  name : ptr;
  x : option Z;
  y : option Z;
  result : option Z;
  greeting : option ptr
}.

Definition statement : Type := locals -> M locals.

(** Lines 34-35: the declarations; no scalar has an initializer. *)
Definition declarations : M locals :=
  a <- local_array 10 ;;
  ret (Locals a None None None None).

(** Line 38: [printf("Uninitialized result = %d\n", result);] *)
Definition line38 : statement :=
  fun l =>
    r <- rvalue (result l) ;;
    printf "Uninitialized result = %d\n" [AInt r] ;;
    ret l.

(** Line 40: [getUserInput(name);] *)
Definition line40 : statement :=
  fun l => getUserInput (name l) ;; ret l.

(** Line 41: [char *greeting = buildGreeting(name);] *)
Definition line41 : statement :=
  fun l =>
    g <- buildGreeting (name l) ;;
    ret (Locals (name l) (x l) (y l) (result l) (Some g)).

(** Line 42: [printf("%s\n", greeting);] *)
Definition line42 : statement :=
  fun l =>
    g <- rvalue (greeting l) ;;
    printf "%s\n" [AStr (At g)] ;;
    ret l.

(** Line 44: [queryDatabase(name);] *)
Definition line44 : statement :=
  fun l => queryDatabase (name l) ;; ret l.

(** Line 46: [printf("Enter two numbers: ");] *)
Definition line46 : statement :=
  fun l => printf "Enter two numbers: " [] ;; ret l.

(** Line 47: [scanf("%d %d", &x, &y);] *)
Definition line47 : statement :=
  fun l =>
    vs <- scanf_d_d ;;
    ret match vs with
        | [] => l
        | [a] => Locals (name l) (Some a) (y l) (result l) (greeting l)
        | a :: b :: _ => Locals (name l) (Some a) (Some b) (result l) (greeting l)
        end.

(** Line 48: [printf("Division result: %d\n", divide(x, y));] *)
Definition line48 : statement :=
  fun l =>
    a <- rvalue (x l) ;;
    b <- rvalue (y l) ;;
    q <- divide a b ;;
    printf "Division result: %d\n" [AInt q] ;;
    ret l.

Definition body : list statement :=
  [line38; line40; line41; line42; line44; line46; line47; line48].

Fixpoint run (ss : list statement) (l : locals) : M locals :=
  match ss with
  | [] => ret l
  | s :: rest => l' <- s l ;; run rest l'
  end.

Definition main : M Z :=
  l <- declarations ;;
  l' <- run body l ;;
  end_of_life (name l') ;;
  ret 0.

Definition program : M Z :=
  global_password ;; main.

End CFixture.

(** ** [test_cpp_issues.cpp] *)

Module CppFixture.
Import Machine Libc.

(** [string api_secret = "sk-abc123456789";] *)
Definition api_secret_init : bytes := lit "sk-abc123456789".

(** [class UnsafeClass { private: char* buffer; ... }] *)
Record UnsafeClass : Type := { buffer : ptr }.

(** The constructor, lines 15-17. *)
Definition UnsafeClass_ctor : M UnsafeClass :=
  b <- malloc 100 ;;
  ret {| buffer := b |}.

Definition unsafeInput (this : UnsafeClass) : M unit :=
  input <- local_array 50 ;;
  cout_chars (Lit "Enter data: ") ;;
  gets input ;;
  strcpy (buffer this) (At input) ;;
  end_of_life input.

(** The format of line 28, as spelled. *)
Definition query_format : string := "SELECT * FROM users WHERE name = '%s'".

Definition processData (this : UnsafeClass) (data : chars) : M unit :=
  query <- local_array 200 ;;
  sprintf query query_format [AStr data] ;;
  cout_chars (At query) ;; endl ;;
  end_of_life query.

Definition divide (this : UnsafeClass) (a b : Z) : M Z := int_div a b.

Definition debugFunction (this : UnsafeClass) : M unit :=
  cout_chars (Lit "Debug mode active") ;; endl ;;
  system (Lit "ls -la") ;;
  ret tt.

(** The objects [main] can name: the global [api_secret], and its own [obj]
    and [result] once their declarations are reached. *)
Record env : Type := Env {
  api_secret : bytes;
  obj : option UnsafeClass;
  result : option Z
}.

Definition statement : Type := env -> M env.

(** Line 45: [UnsafeClass obj;] *)
Definition line45 : statement :=
  fun e => o <- UnsafeClass_ctor ;; ret (Env (api_secret e) (Some o) (result e)).

(** Line 48: [obj.unsafeInput();] *)
Definition line48 : statement :=
  fun e => o <- rvalue (obj e) ;; unsafeInput o ;; ret e.

(** Line 49: [obj.processData("admin'; DROP TABLE users; --");] *)
Definition line49 : statement :=
  fun e =>
    o <- rvalue (obj e) ;;
    processData o (Lit "admin'; DROP TABLE users; --") ;;
    ret e.

(** Line 51: [cout << "API Secret: " << api_secret << endl;] *)
Definition line51 : statement :=
  fun e =>
    cout_chars (Lit "API Secret: ") ;; cout_string (api_secret e) ;; endl ;;
    ret e.

(** Line 53: [int result = obj.divide(10, 0);] *)
Definition line53 : statement :=
  fun e =>
    o <- rvalue (obj e) ;;
    q <- divide o 10 0 ;;
    ret (Env (api_secret e) (obj e) (Some q)).

(** Line 54: [cout << "Result: " << result << endl;] *)
Definition line54 : statement :=
  fun e =>
    r <- rvalue (result e) ;;
    cout_chars (Lit "Result: ") ;; cout_int r ;; endl ;;
    ret e.

Definition body : list statement :=
  [line45; line48; line49; line51; line53; line54].

Fixpoint run (ss : list statement) (e : env) : M env :=
  match ss with
  | [] => ret e
  | s :: rest => e' <- s e ;; run rest e'
  end.

Definition main (e : env) : M Z :=
  run body e ;; ret 0.

Definition program : M Z :=
  main (Env api_secret_init None None).

(** The statements of [main] that come before line 51, and before line 53. *)
Definition before_line51 : list statement := [line45; line48; line49].

Definition before_line53 : list statement := before_line51 ++ [line51].

End CppFixture.

(** ** The texts of the fixtures

    Each file is kept line by line.  A double quote of the file is typed
    here as a backquote, a character neither file uses; [text] puts the
    double quotes back and joins the lines with new-line bytes. *)

Module Source.

Definition requote (c : ascii) : ascii :=
  if Ascii.eqb c "`" then DQ else c.

Definition line_bytes (l : string) : bytes := map requote (of_string l).

Fixpoint join_lines (ls : list bytes) : bytes :=
  match ls with
  | [] => []
  | [l] => l
  | l :: rest => l ++ LF :: join_lines rest
  end.

Definition text (final_newline : bool) (ls : list string) : bytes :=
  join_lines (map line_bytes ls) ++ (if final_newline then [LF] else []).

Local Open Scope string_scope.

(** [unsafe_c_code.c]: 53 lines, the last one without a new-line. *)
Definition unsafe_c_code_lines : list string :=
  [ "#include <stdio.h>";
    "#include <stdlib.h>";
    "#include <string.h>";
    "";
    "char global_password[20] = `admin123`; // Hardcoded secret (bad practice)";
    "";
    "// Function to read user input (unsafe)";
    "void getUserInput(char *buffer) {";
    "    printf(`Enter your name: `);";
    "    gets(buffer); // Insecure: buffer overflow risk";
    "}";
    "";
    "// Function with memory leak and unsafe string handling";
    "char* buildGreeting(char *name) {";
    "    char *greet = malloc(50); // Allocated but never freed";
    "    strcpy(greet, `Hello `);  // Unsafe strcpy";
    "    strcat(greet, name);      // Unsafe strcat";
    "    return greet;";
    "}";
    "";
    "// Function simulating SQL query construction (SQL injection risk)";
    "void queryDatabase(char *userInput) {";
    "    char query[200];";
    "    sprintf(query, `SELECT * FROM users WHERE name = '%s';`, userInput); // Injection risk";
    "    printf(`Executing query: %s\n`, query);";
    "}";
    "";
    "// Function with division by zero possibility";
    "int divide(int a, int b) {";
    "    return a / b; // No check for b == 0";
    "}";
    "";
    "int main() {";
    "    char name[10]; // Too small buffer";
    "    int x, y, result;";
    "";
    "    // Using uninitialized variables";
    "    printf(`Uninitialized result = %d\n`, result);";
    "";
    "    getUserInput(name);";
    "    char *greeting = buildGreeting(name);";
    "    printf(`%s\n`, greeting);";
    "";
    "    queryDatabase(name);";
    "";
    "    printf(`Enter two numbers: `);";
    "    scanf(`%d %d`, &x, &y);";
    "    printf(`Division result: %d\n`, divide(x, y));";
    "";
    "    // Forgot to free(greeting); --> memory leak";
    "";
    "    return 0;";
    "}" ].

Definition unsafe_c_code : bytes := text false unsafe_c_code_lines.

(** [test_cpp_issues.cpp]: 58 lines. *)
Definition test_cpp_issues_lines : list string :=
  [ "// C++ Test File with Multiple Issues";
    "#include <iostream>";
    "#include <cstring>";
    "#include <cstdlib>";
    "";
    "using namespace std;";
    "";
    "string api_secret = `sk-abc123456789`;  // Hardcoded secret - SECURITY ISSUE";
    "";
    "class UnsafeClass {";
    "private:";
    "    char* buffer;";
    "    ";
    "public:";
    "    UnsafeClass() {";
    "        buffer = (char*)malloc(100);  // Memory allocation without proper cleanup";
    "    }";
    "    ";
    "    void unsafeInput() {";
    "        char input[50];";
    "        cout << `Enter data: `;";
    "        gets(input);  // SECURITY: Buffer overflow vulnerability";
    "        strcpy(buffer, input);  // SECURITY: Unsafe string copy";
    "    }";
    "    ";
    "    void processData(const char* data) {";
    "        char query[200];";
    "        sprintf(query, `SELECT * FROM users WHERE name = '%s'`, data);  // SECURITY: SQL injection + buffer overflow";
    "        cout << query << endl;  // Debug output";
    "    }";
    "    ";
    "    int divide(int a, int b) {";
    "        return a / b;  // QUALITY: Division by zero risk";
    "    }";
    "    ";
    "    // hello test - this is a test comment  // QUALITY: Test comment";
    "    void debugFunction() {";
    "        cout << `Debug mode active` << endl;  // Debug statement";
    "        // TODO: fix this later  // QUALITY: TODO comment";
    "        system(`ls -la`);  // SECURITY: Command execution";
    "    }";
    "};";
    "";
    "int main() {";
    "    UnsafeClass obj;";
    "    ";
    "    // test comment here  // Test comment";
    "    obj.unsafeInput();";
    "    obj.processData(`admin'; DROP TABLE users; --`);";
    "    ";
    "    cout << `API Secret: ` << api_secret << endl;  // SECURITY: Exposing secret";
    "    ";
    "    int result = obj.divide(10, 0);  // Division by zero";
    "    cout << `Result: ` << result << endl;";
    "    ";
    "    return 0;";
    "    // Missing: delete[] buffer; - QUALITY: Memory leak";
    "}" ].

Definition test_cpp_issues : bytes := text true test_cpp_issues_lines.

End Source.

(** ** The defect rules of the specification

    The repository has no scanner: the rules exist in the specification only
    (its sections 4.1, 4.3 and 9).  They are modelled here from its words, as
    executable conditions on a text, to be evaluated on the two fixtures. *)

Module Scanner.

Local Open Scope nat_scope.

(** Modelled from the spec: the Line Index of section 4.1, absent from the
    repository.  Lines and columns are 1-based and the column of an offset
    is [offset - line_start + 1]. *)
Fixpoint locate_from (line col : nat) (s : bytes) (off : nat) : nat * nat :=
  match off, s with
  | S off', c :: rest =>
      if Ascii.eqb c LF then locate_from (S line) 1 rest off'
      else locate_from line (S col) rest off'
  | _, _ => (line, col)
  end.

Definition locate (s : bytes) (off : nat) : nat * nat := locate_from 1 1 s off.

(** The offset of column [col] of line [line]. *)
Fixpoint offset_from (line col : nat) (s : bytes) : nat :=
  match line with
  | 0 | 1 => col - 1
  | S line' =>
      match s with
      | [] => col - 1
      | c :: rest =>
          S (if Ascii.eqb c LF then offset_from line' col rest
             else offset_from line col rest)
      end
  end.

Definition slice {A} (s : list A) (off len : nat) : list A := take len (drop off s).

(** Modelled from the spec: the lex state of section 9, absent from the
    repository: the states [{code, line_comment, block_comment, dq_string,
    sq_string}]. *)
Inductive lex_state : Type :=
| code
| line_comment
| block_comment
| dq_string
| sq_string.

Definition lex_state_eqb (a b : lex_state) : bool :=
  match a, b with
  | code, code | line_comment, line_comment | block_comment, block_comment
  | dq_string, dq_string | sq_string, sq_string => true
  | _, _ => false
  end.

Definition is_byte (c : ascii) (o : option ascii) : bool :=
  match o with
  | Some d => Ascii.eqb c d
  | None => false
  end.

(** Modelled from the spec: the transitions of the lex state machine of
    section 9, driven by the current and the next byte; a backslash inside a
    string consumes the next byte.  The result gives the state of every byte;
    the delimiters of a comment or string belong to it, the new-line that
    ends a line comment is code.  [held] is set when the current byte was
    consumed together with the one before it, and gives the state that
    follows. *)
Fixpoint lex (st : lex_state) (held : option lex_state) (s : bytes) : list lex_state :=
  match s with
  | [] => []
  | c :: rest =>
      match held with
      | Some after => st :: lex after None rest
      | None =>
          let next := head rest in
          match st with
          | code =>
              if Ascii.eqb c "/" && is_byte "/" next
              then line_comment :: lex line_comment (Some line_comment) rest
              else if Ascii.eqb c "/" && is_byte "*" next
              then block_comment :: lex block_comment (Some block_comment) rest
              else if Ascii.eqb c DQ then dq_string :: lex dq_string None rest
              else if Ascii.eqb c SQ then sq_string :: lex sq_string None rest
              else code :: lex code None rest
          | line_comment =>
              if Ascii.eqb c LF then code :: lex code None rest
              else line_comment :: lex line_comment None rest
          | block_comment =>
              if Ascii.eqb c "*" && is_byte "/" next
              then block_comment :: lex block_comment (Some code) rest
              else block_comment :: lex block_comment None rest
          | dq_string =>
              if Ascii.eqb c BSL then dq_string :: lex dq_string (Some dq_string) rest
              else if Ascii.eqb c DQ then dq_string :: lex code None rest
              else dq_string :: lex dq_string None rest
          | sq_string =>
              if Ascii.eqb c BSL then sq_string :: lex sq_string (Some sq_string) rest
              else if Ascii.eqb c SQ then sq_string :: lex code None rest
              else sq_string :: lex sq_string None rest
          end
      end
  end.

Definition lex_states (s : bytes) : list lex_state := lex code None s.

Definition in_comment (st : lex_state) : bool :=
  match st with
  | line_comment | block_comment => true
  | _ => false
  end.

(** *** Patterns *)

(** Modelled from the spec: the patterns the rules of section 4.3 are
    written in (alternation, an optional part, a class, the word boundary
    [\b]); none of them iterates. *)
Inductive re : Type :=
| Eps
| Chr (c : ascii)
| Cls (p : ascii -> bool)
| Seq (a b : re)
| Alt (a b : re)
| Opt (a : re)
| Bnd.

Fixpoint Str_bytes (s : bytes) : re :=
  match s with
  | [] => Eps
  | c :: rest => Seq (Chr c) (Str_bytes rest)
  end.

Definition Str (s : string) : re := Str_bytes (of_string s).

Definition is_word (c : ascii) : bool :=
  let n := nat_of_ascii c in
  ((48 <=? n) && (n <=? 57)) || ((65 <=? n) && (n <=? 90))
  || ((97 <=? n) && (n <=? 122)) || (n =? 95).

Definition is_word_opt (o : option ascii) : bool :=
  match o with
  | Some c => is_word c
  | None => false
  end.

Definition lower (c : ascii) : ascii :=
  let n := nat_of_ascii c in
  if (65 <=? n) && (n <=? 90) then ascii_of_nat (n + 32) else c.

Definition same_byte (ci : bool) (a b : ascii) : bool :=
  if ci then Ascii.eqb (lower a) (lower b) else Ascii.eqb a b.

(** The matches of [r] at the head of [s], each as the byte before the rest
    and the rest; [prev] is the byte before [s], [ci] ignores case. *)
Fixpoint run_re (ci : bool) (r : re) (prev : option ascii) (s : bytes)
  : list (option ascii * bytes) :=
  match r with
  | Eps => [(prev, s)]
  | Chr c =>
      match s with
      | d :: rest => if same_byte ci c d then [(Some d, rest)] else []
      | [] => []
      end
  | Cls p =>
      match s with
      | d :: rest => if p d then [(Some d, rest)] else []
      | [] => []
      end
  | Seq a b =>
      flat_map (fun m => run_re ci b (fst m) (snd m)) (run_re ci a prev s)
  | Alt a b => run_re ci a prev s ++ run_re ci b prev s
  | Opt a => run_re ci a prev s ++ [(prev, s)]
  | Bnd => if xorb (is_word_opt prev) (is_word_opt (head s)) then [(prev, s)] else []
  end.

(** The length of the first match of [r] at the head of [s], if any. *)
Definition match_here (ci : bool) (r : re) (prev : option ascii) (s : bytes) : option nat :=
  match run_re ci r prev s with
  | m :: _ => Some (length s - length (snd m))
  | [] => None
  end.

(** All the places of [s] where [r] matches: offset and length. *)
Fixpoint find_from (ci : bool) (r : re) (prev : option ascii) (off : nat) (s : bytes)
  : list (nat * nat) :=
  match s with
  | [] => []
  | c :: rest =>
      match match_here ci r prev s with
      | Some len => [(off, len)]
      | None => []
      end ++ find_from ci r (Some c) (S off) rest
  end.

Definition find_all (ci : bool) (r : re) (s : bytes) : list (nat * nat) :=
  find_from ci r None 0 s.

(** [r] matches somewhere in [s]. *)
Definition search (ci : bool) (r : re) (s : bytes) : bool :=
  match find_all ci r s with
  | [] => false
  | _ :: _ => true
  end.

(** *** The text as the rules see it *)

(** A byte of the text in its context: its offset, the bytes before it
    (nearest first), its lex state and the state of the byte before it, and
    the text from it on. *)
Record position : Type := Position {
  p_off : nat;
  p_back : bytes;
  p_before : lex_state;
  p_state : lex_state;
  p_rest : bytes
}.

Fixpoint positions_from (off : nat) (back : bytes) (before : lex_state)
  (s : bytes) (sts : list lex_state) : list position :=
  match s, sts with
  | c :: rest, st :: sts' =>
      Position off back before st s :: positions_from (S off) (c :: back) st rest sts'
  | _, _ => []
  end.

Definition positions (s : bytes) : list position :=
  positions_from 0 [] code s (lex_states s).

Definition p_prev (p : position) : option ascii := head (p_back p).

Definition p_byte (p : position) : option ascii := head (p_rest p).

Definition in_code (p : position) : bool := lex_state_eqb (p_state p) code.

(** A finding: the rule, the line and column of its first byte, the length
    of the span (section 3). *)
Inductive rule_id : Type :=
| HARDCODED_SECRET
| FORMATTED_QUERY
| POSSIBLE_MEMORY_LEAK
| DEBUG_PRINT
| TODO_COMMENT
| TEST_LEFTOVER_COMMENT.

Record finding : Type := Finding {
  f_rule : rule_id;
  f_line : nat;
  f_column : nat;
  f_length : nat
}.

Definition finding_at (text : bytes) (r : rule_id) (off len : nat) : finding :=
  Finding r (fst (locate text off)) (snd (locate text off)) len.

(** The identifiers of the code: the maximal runs of word bytes in state
    [code], each with its offset. *)
Fixpoint identifiers_from (start : nat) (acc : bytes) (ps : list position)
  : list (nat * bytes) :=
  let flush := match acc with [] => [] | _ :: _ => [(start, acc)] end in
  match ps with
  | [] => flush
  | p :: rest =>
      match p_byte p with
      | Some c =>
          if is_word c && in_code p
          then identifiers_from (match acc with [] => p_off p | _ :: _ => start end)
                                (acc ++ [c]) rest
          else flush ++ identifiers_from 0 [] rest
      | None => flush
      end
  end.

Definition identifiers (text : bytes) : list (nat * bytes) :=
  identifiers_from 0 [] (positions text).

(** The spelling of the string literal whose opening quote is the head of
    [s]: the bytes up to the closing quote, escape sequences as written. *)
Fixpoint literal_body (esc : bool) (s : bytes) : option bytes :=
  match s with
  | [] => None
  | c :: rest =>
      if esc then option_map (cons c) (literal_body false rest)
      else if Ascii.eqb c BSL then option_map (cons c) (literal_body true rest)
      else if Ascii.eqb c DQ then Some []
      else option_map (cons c) (literal_body false rest)
  end.

Definition literal_at (s : bytes) : option bytes :=
  match s with
  | c :: rest => if Ascii.eqb c DQ then literal_body false rest else None
  | [] => None
  end.

(** An opening quote: the first byte of a string literal. *)
Definition opens_literal (p : position) : bool :=
  lex_state_eqb (p_state p) dq_string && lex_state_eqb (p_before p) code.

Fixpoint blanks (s : bytes) : nat :=
  match s with
  | c :: rest => if Ascii.eqb c " " then S (blanks rest) else 0
  | [] => 0
  end.

(** *** Token-near-literal: HARDCODED_SECRET *)

(** Modelled from the spec: the name pattern of the Token-near-literal kind
    (section 4.3), [secret|password|api[_-]?key|token]. *)
Definition secret_name : re :=
  Alt (Str "secret")
      (Alt (Str "password")
           (Alt (Seq (Str "api") (Seq (Opt (Alt (Chr "_") (Chr "-"))) (Str "key")))
                (Str "token"))).

(** Modelled from the spec: the two numbers of the Token-near-literal kind,
    [N = 40] bytes and a literal of length at least 6. *)
Definition near : nat := 40.
Definition min_literal : nat := 6.

(** Modelled from the spec: the assignment operator of the
    Token-near-literal kind, taken as a [=] of the code that is not part of
    a comparison. *)
Definition is_assignment (p : position) : bool :=
  in_code p && is_byte "=" (p_byte p)
  && negb (is_byte "=" (head (tail (p_rest p))))
  && negb (is_byte "=" (p_prev p) || is_byte "!" (p_prev p)
           || is_byte "<" (p_prev p) || is_byte ">" (p_prev p)).

(** The literal an assignment operator is followed by: its offset and its
    spelling. *)
Definition assigned_literal (p : position) : option (nat * bytes) :=
  let after := tail (p_rest p) in
  match literal_at (drop (blanks after) after) with
  | Some body => Some (p_off p + 1 + blanks after, body)
  | None => None
  end.

(** The identifiers in which the name pattern matches and which begin at
    most [near] bytes before offset [a]. *)
Definition secret_near (ids : list (nat * bytes)) (a : nat) : list (nat * bytes) :=
  List.filter (fun id => (fst id <=? a) && (a - fst id <=? near)
                    && search false secret_name (snd id)) ids.

(** Modelled from the spec: the Token-near-literal condition of section 4.3,
    absent from the repository.  It holds at an assignment operator at
    offset [a] when the operator is followed by a string literal of at least
    6 bytes and an identifier in which the name pattern matches begins at
    most 40 bytes before [a]; the finding is at the literal's start. *)
Definition hardcoded_secret (text : bytes) : list finding :=
  flat_map (fun p =>
    if is_assignment p then
      match assigned_literal p with
      | Some (off, body) =>
          if (min_literal <=? length body)
             && match secret_near (identifiers text) (p_off p) with [] => false | _ :: _ => true end
          then [finding_at text HARDCODED_SECRET off (length body + 2)]
          else []
      | None => []
      end
    else []) (positions text).

(** *** Structural rules: FORMATTED_QUERY and DEBUG_PRINT *)

(** Modelled from the spec: the logical statement terminator of the
    Structural-regex kind, taken as a [;] or a brace of the code. *)
Definition is_terminator (p : position) : bool :=
  in_code p
  && (is_byte ";" (p_byte p) || is_byte "{" (p_byte p) || is_byte "}" (p_byte p)).

(** The logical statements of a text: the runs of bytes that end with a
    [;] or a brace of the code. *)
Fixpoint statements_from (cur : list position) (ps : list position)
  : list (list position) :=
  match ps with
  | [] => match cur with [] => [] | _ :: _ => [rev cur] end
  | p :: rest =>
      if is_terminator p then rev (p :: cur) :: statements_from [] rest
      else statements_from (p :: cur) rest
  end.

Definition statements (text : bytes) : list (list position) :=
  statements_from [] (positions text).

(** A name as a whole word. *)
Definition word (r : re) : re := Seq Bnd (Seq r Bnd).

Definition starts (r : re) (p : position) : option nat :=
  if in_code p then match_here false r (p_prev p) (p_rest p) else None.

(** The places of a statement where the code calls one of [prim]. *)
Definition calls (prim : re) (seg : list position) : list (nat * nat) :=
  flat_map (fun p => match starts (word prim) p with
                     | Some len => [(p_off p, len)]
                     | None => []
                     end) seg.

(** The string literals of a statement, as spelled. *)
Definition literals (seg : list position) : list bytes :=
  flat_map (fun p => if opens_literal p
                     then match literal_at (p_rest p) with
                          | Some body => [body]
                          | None => []
                          end
                     else []) seg.

(** Modelled from the spec: the Structural-regex kind of section 4.3, absent
    from the repository: within one logical statement, a call of a primitive
    of [prim] and a literal argument that satisfies [cond].  The finding is
    at the callee name. *)
Definition structural (rule : rule_id) (prim : re) (cond : bytes -> bool)
  (text : bytes) : list finding :=
  flat_map (fun seg =>
    match calls prim seg with
    | (off, len) :: _ =>
        if existsb cond (literals seg) then [finding_at text rule off len] else []
    | [] => []
    end) (statements text).

(** Modelled from the spec: the format-print primitives of
    FORMATTED_QUERY, which the specification does not list; the [printf]
    family. *)
Definition format_print : re :=
  Alt (Str "sprintf") (Alt (Str "snprintf") (Alt (Str "fprintf") (Str "printf"))).

Definition query_keyword : re :=
  Alt (Str "SELECT") (Alt (Str "INSERT") (Alt (Str "UPDATE") (Str "DELETE"))).

(** Modelled from the spec: the FORMATTED_QUERY condition on a literal: it
    contains [SELECT|INSERT|UPDATE|DELETE] and a [%s]. *)
Definition formatted_query_literal (l : bytes) : bool :=
  search false query_keyword l && search false (Str "%s") l.

(** Modelled from the spec: the rule FORMATTED_QUERY of section 4.3. *)
Definition formatted_query : bytes -> list finding :=
  structural FORMATTED_QUERY format_print formatted_query_literal.

(** Modelled from the spec: the output primitives of DEBUG_PRINT, which the
    specification does not list; the [printf] family, [puts] and the two
    C++ streams. *)
Definition output_primitive : re :=
  Alt format_print (Alt (Str "puts") (Alt (Str "cout") (Str "cerr"))).

(** Modelled from the spec: the DEBUG_PRINT pattern, [debug|DEBUG]. *)
Definition debug_word : re := Alt (Str "debug") (Str "DEBUG").

(** Modelled from the spec: the DEBUG_PRINT condition on a literal: it
    contains [debug|DEBUG], as written. *)
Definition debug_print_literal (l : bytes) : bool := search false debug_word l.

(** Modelled from the spec: the rule DEBUG_PRINT of section 4.3. *)
Definition debug_print : bytes -> list finding :=
  structural DEBUG_PRINT output_primitive debug_print_literal.

(** The same rule with the case of the letters ignored, which the
    specification does not ask for. *)
Definition debug_print_nocase : bytes -> list finding :=
  structural DEBUG_PRINT output_primitive (search true debug_word).

(** *** Comment-scan: TODO_COMMENT and TEST_LEFTOVER_COMMENT *)

(** Modelled from the spec: the Comment-scan kind of section 4.3, absent
    from the repository: the matches of a pattern all of whose bytes lie in a
    comment. *)
Definition comment_scan (rule : rule_id) (ci : bool) (r : re) (text : bytes)
  : list finding :=
  flat_map (fun p =>
    if in_comment (p_state p) then
      match match_here ci r (p_prev p) (p_rest p) with
      | Some len =>
          if forallb in_comment (slice (lex_states text) (p_off p) len)
          then [finding_at text rule (p_off p) len]
          else []
      | None => []
      end
    else []) (positions text).

(** Modelled from the spec: the TODO_COMMENT pattern, [TODO|FIXME|XXX|HACK],
    case-insensitive. *)
Definition todo_marker : re :=
  Alt (Str "TODO") (Alt (Str "FIXME") (Alt (Str "XXX") (Str "HACK"))).

(** Modelled from the spec: the rule TODO_COMMENT of section 4.3. *)
Definition todo_comment : bytes -> list finding :=
  comment_scan TODO_COMMENT true todo_marker.

(** Modelled from the spec: the TEST_LEFTOVER_COMMENT pattern,
    [\btest\b|\bhello\b]. *)
Definition test_leftover : re := Alt (word (Str "test")) (word (Str "hello")).

(** Modelled from the spec: the rule TEST_LEFTOVER_COMMENT of section 4.3. *)
Definition test_leftover_comment : bytes -> list finding :=
  comment_scan TEST_LEFTOVER_COMMENT false test_leftover.

(** *** The leak heuristic: POSSIBLE_MEMORY_LEAK *)

Definition is_blank (c : ascii) : bool :=
  let n := nat_of_ascii c in (n =? 32) || ((9 <=? n) && (n <=? 13)).

(** Modelled from the spec: the deny-list of heap-allocation primitives,
    [malloc|calloc|realloc|new\s]; the first three as call sites, followed at
    once by an opening parenthesis. *)
Definition allocation : re :=
  Seq Bnd
      (Alt (Seq (Alt (Str "malloc") (Alt (Str "calloc") (Str "realloc"))) (Chr "("))
           (Seq (Str "new") (Cls is_blank))).

(** Modelled from the spec: the release primitives, [free|delete]. *)
Definition release : re := Alt (Str "free") (Str "delete").

(** Modelled from the spec: the Call-site kind of section 4.3 asks that the
    name is not preceded by a word byte, a dot or an arrow; the first is the
    [Bnd] of the pattern, the other two are checked here. *)
Definition bare (p : position) : bool :=
  match p_back p with
  | a :: rest => negb (Ascii.eqb a ".")
                 && negb (Ascii.eqb a ">" && is_byte "-" (head rest))
  | [] => true
  end.

Definition allocation_site (p : position) : bool :=
  bare p && match starts allocation p with
            | Some _ => true
            | None => false
            end.

(** The closing brace of the block the scanned bytes begin in: the first
    brace of the code that closes more than was opened. *)
Fixpoint closing (depth : nat) (ps : list position) : option nat :=
  match ps with
  | [] => None
  | p :: rest =>
      if in_code p && is_byte "{" (p_byte p) then closing (S depth) rest
      else if in_code p && is_byte "}" (p_byte p) then
        match depth with
        | 0 => Some (p_off p)
        | S d => closing d rest
        end
      else closing depth rest
  end.

(** The same backwards, for the opening brace. *)
Fixpoint opening (depth : nat) (back : list position) : option nat :=
  match back with
  | [] => None
  | p :: rest =>
      if in_code p && is_byte "}" (p_byte p) then opening (S depth) rest
      else if in_code p && is_byte "{" (p_byte p) then
        match depth with
        | 0 => Some (p_off p)
        | S d => opening d rest
        end
      else opening depth rest
  end.

(** The positions before offset [off], nearest first. *)
Definition backwards (text : bytes) (off : nat) : list position :=
  rev (take off (positions text)).

(** Modelled from the spec: the enclosing balanced-brace block of an offset,
    as the offsets of its two braces (the whole text when there is none). *)
Definition enclosing_block (text : bytes) (off : nat) : nat * nat :=
  (default 0 (opening 0 (backwards text off)),
   default (length text) (closing 0 (drop off (positions text)))).

Fixpoint nearest_assignment (back : list position) : option nat :=
  match back with
  | [] => None
  | p :: rest =>
      if is_terminator p then None
      else if is_assignment p then Some (p_off p)
      else nearest_assignment rest
  end.

Fixpoint statement_start (back : list position) : nat :=
  match back with
  | [] => 0
  | p :: rest => if is_terminator p then S (p_off p) else statement_start rest
  end.

(** Modelled from the spec: the receiving identifier of an allocation: the
    identifier that stands last before the assignment operator the call is
    the right-hand side of. *)
Definition receiver (text : bytes) (off : nat) : option bytes :=
  let back := backwards text off in
  match nearest_assignment back with
  | None => None
  | Some a =>
      last (map snd
              (List.filter (fun id => (statement_start back <=? fst id)
                                      && (fst id + length (snd id) <=? a))
                           (identifiers text)))
  end.

(** The argument token of a release at [off] of length [len]: the identifier
    that comes next. *)
Definition argument (text : bytes) (off len : nat) : option bytes :=
  head (map snd (List.filter (fun id => off + len <=? fst id) (identifiers text))).

(** The releases of the code between two offsets, each with its argument. *)
Definition releases (text : bytes) (lo hi : nat) : list (nat * option bytes) :=
  flat_map (fun p =>
    if (lo <=? p_off p) && (p_off p <=? hi) then
      match starts (word release) p with
      | Some len => [(p_off p, argument text (p_off p) len)]
      | None => []
      end
    else []) (positions text).

Definition same_token (a b : option bytes) : bool :=
  match a, b with
  | Some u, Some v => eqb_bytes u v
  | _, _ => false
  end.

(** Modelled from the spec: the leak heuristic of section 4.3, absent from
    the repository: an allocation site with no release, from it to the end of
    its enclosing block, whose argument is the receiving identifier. *)
Definition leaks (text : bytes) (p : position) : bool :=
  if allocation_site p then
    negb (existsb (fun r => same_token (snd r) (receiver text (p_off p)))
                  (releases text (p_off p) (snd (enclosing_block text (p_off p)))))
  else false.

(** Modelled from the spec: the rule POSSIBLE_MEMORY_LEAK of section 4.3;
    the finding is at the allocation site. *)
Definition possible_memory_leak (text : bytes) : list finding :=
  flat_map (fun p =>
    if leaks text p then [finding_at text POSSIBLE_MEMORY_LEAK (p_off p) 6] else [])
    (positions text).

(** *** Occurrences of a name in the code *)

(** The byte that follows the identifier at [off], blanks skipped. *)
Definition follower (text : bytes) (off len : nat) : option ascii :=
  let after := drop (off + len) text in
  head (drop (blanks after) after).

(** Where [name] stands in the code as an identifier, and what follows. *)
Definition occurrences (text : bytes) (name : string) : list (nat * nat * option ascii) :=
  flat_map (fun id =>
    if eqb_bytes (snd id) (of_string name)
    then [(locate text (fst id), follower text (fst id) (length (snd id)))]
    else []) (identifiers text).

(** *** Reading the text at a line and column *)

Definition offset_of (text : bytes) (line col : nat) : nat := offset_from line col text.

(** The bytes of the span of length [len] at [line], [col], and their states. *)
Definition span (text : bytes) (line col len : nat) : bytes :=
  slice text (offset_of text line col) len.

Definition span_states (text : bytes) (line col len : nat) : list lex_state :=
  slice (lex_states text) (offset_of text line col) len.

(** The string literals that open on a line, as spelled. *)
Definition literals_on_line (text : bytes) (line : nat) : list bytes :=
  literals (List.filter (fun p => fst (locate text (p_off p)) =? line) (positions text)).

(** The call sites of [prim] in the code, as lines and columns. *)
Definition calls_in (text : bytes) (prim : re) : list (nat * nat) :=
  map (fun c => locate text (fst c)) (calls prim (positions text)).

(** Every place where [r] matches, in code, string or comment, with the lex
    state of its first byte. *)
Definition matches_of (text : bytes) (r : re) : list (nat * nat * lex_state) :=
  map (fun m => (locate text (fst m), nth (fst m) (lex_states text) code))
      (find_all false r text).

(** What the Token-near-literal condition rests on, for every assignment of
    a literal with a secret name near it: where the identifier stands and
    how it is spelled, where the operator and the literal stand, the
    literal's spelling, and the bytes between the identifier's start and the
    operator. *)
Definition secret_evidence (text : bytes)
  : list ((nat * nat) * bytes * (nat * nat) * (nat * nat) * bytes * nat) :=
  flat_map (fun p =>
    if is_assignment p then
      match assigned_literal p with
      | Some (off, body) =>
          map (fun id => (locate text (fst id), snd id, locate text (p_off p),
                          locate text off, body, p_off p - fst id))
              (secret_near (identifiers text) (p_off p))
      | None => []
      end
    else []) (positions text).

(** The allocation sites of a text. *)
Definition allocation_sites (text : bytes) : list position :=
  List.filter allocation_site (positions text).

End Scanner.

(** ** Sample runs *)

Module Samples.
Import Machine Libc.

(** A store whose block 0 is a 10-byte array holding [s]. *)
Definition named (s : string) (input : string) (budget : nat) : world :=
  World (lit input) []
        [Some (map Some (lit s) ++ replicate (10 - length (lit s)) (Some NUL))]
        budget [].

(** A 10-byte array not yet written, and a line on the standard input. *)
Definition typing (input : string) : world :=
  World (lit input) [] [Some (fresh_block 10)] 64 [].

End Samples.

(** * Facts about the machine and the two programs *)

Import Bytes Machine Libc Contents.

(** ** The monad *)

Lemma bind_done {A B} (m : M A) (k : A -> M B) w a w' :
  m w = Done a w' -> bind m k w = k a w'.
Proof. intros H. unfold bind. now rewrite H. Qed.

Lemma bind_fault {A B} (m : M A) (k : A -> M B) w f w' :
  m w = Fault f w' -> bind m k w = Fault f w'.
Proof. intros H. unfold bind. now rewrite H. Qed.

Lemma bind_done_inv {A B} (m : M A) (k : A -> M B) w b w2 :
  bind m k w = Done b w2 -> exists a w1, m w = Done a w1 /\ k a w1 = Done b w2.
Proof. unfold bind. destruct (m w) as [a w1|f w1]; [eauto | discriminate]. Qed.


Lemma cstring_holds (s : bytes) (rest : block) :
  no_nul s -> cstring (map Some s ++ Some NUL :: rest) = inr s.
Proof.
  induction 1 as [|c s Hc _ IH]; simpl.
  - reflexivity.
  - apply Ascii.eqb_neq in Hc. rewrite Hc, IH. reflexivity.
Qed.

Lemma cstring_inv (blk : block) (s : bytes) :
  cstring blk = inr s -> no_nul s /\ exists rest, blk = map Some s ++ Some NUL :: rest.
Proof.
  revert s. induction blk as [|[c|] blk IH]; simpl; intros s H; try discriminate.
  destruct (Ascii.eqb c NUL) eqn:E.
  - inversion H; subst. apply Ascii.eqb_eq in E. subst. split; [constructor | exists blk; reflexivity].
  - destruct (cstring blk) as [f|t] eqn:Et; [discriminate|]. inversion H; subst.
    destruct (IH t eq_refl) as [Hn [rest ->]]. apply Ascii.eqb_neq in E.
    split; [constructor; assumption | exists rest; reflexivity].
Qed.


Lemma overwrite_after (d bs : bytes) (rest : block) :
  overwrite (length d) bs (map Some d ++ rest) = map Some d ++ map Some bs ++ drop (length bs) rest.
Proof.
  unfold overwrite.
  rewrite take_app_length' by (now rewrite length_map).
  rewrite drop_app_add' by (now rewrite length_map).
  reflexivity.
Qed.


Lemma deref_block w p blk : block_at w p = Some blk -> deref p w = Done blk w.
Proof.
  destruct p as [|b]; simpl; [discriminate|].
  unfold deref. destruct (w_mem w !! b) as [[x|]|]; intros H; inversion H; reflexivity.
Qed.

Lemma load_cstr_holds w p s : holds w p s -> load_cstr p w = Done s w.
Proof.
  intros (blk & Hb & Hs). unfold load_cstr.
  rewrite (bind_done _ _ _ _ _ (deref_block _ _ _ Hb)). now rewrite Hs.
Qed.

Lemma store_fits w b blk off bs :
  w_mem w !! b = Some (Some blk) -> (off + length bs <= length blk)%nat ->
  store (Ptr b) off bs w = Done tt (set_mem (<[b := Some (overwrite off bs blk)]> (w_mem w)) w).
Proof.
  intros Hb Hlen. unfold store.
  rewrite (bind_done _ _ w blk w) by (unfold deref; now rewrite Hb).
  apply Nat.leb_le in Hlen. now rewrite Hlen.
Qed.

Lemma store_overflows w b blk off bs :
  w_mem w !! b = Some (Some blk) -> (length blk < off + length bs)%nat ->
  store (Ptr b) off bs w = Fault BufferOverflow w.
Proof.
  intros Hb Hlen. unfold store.
  rewrite (bind_done _ _ w blk w) by (unfold deref; now rewrite Hb).
  apply Nat.leb_gt in Hlen. now rewrite Hlen.
Qed.

Lemma lookup_pushed (m : list (option block)) (x : option block) :
  (m ++ [x]) !! length m = Some x.
Proof. rewrite lookup_app_r by lia. now rewrite Nat.sub_diag. Qed.

Lemma lookup_old (m : list (option block)) (x : option block) (b : nat) (y : option block) :
  m !! b = Some y -> (m ++ [x]) !! b = Some y.
Proof. intros H. rewrite lookup_app_l; [assumption | now apply lookup_lt_Some in H]. Qed.

Ltac bind_inv H :=
  repeat match type of H with
  | bind _ _ _ = Done _ _ =>
      let a := fresh "a" in let w := fresh "w" in
      let H1 := fresh "Hstep" in
      apply bind_done_inv in H; destruct H as (a & w & H1 & H)
  | ret _ _ = Done _ _ => unfold ret in H; inversion H; subst; clear H
  end.

Lemma gets_overflows (w : world) (b : nat) (blk : block) :
  w_mem w !! b = Some (Some blk) ->
  (length blk <= length (take_line (w_stdin w)))%nat ->
  w_stdin w <> [] ->
  gets (Ptr b) w = Fault BufferOverflow (set_stdin (after_line (w_stdin w)) w).
Proof.
  intros Hb Hlen Hne. unfold gets.
  remember (take_line (w_stdin w)) as line.
  destruct (w_stdin w) as [|c i]; [congruence|].
  apply bind_fault. apply (store_overflows _ b blk); [exact Hb|].
  rewrite length_app. simpl. lia.
Qed.

Lemma gets_fits (w : world) (b : nat) (blk : block) :
  w_mem w !! b = Some (Some blk) ->
  (length (take_line (w_stdin w)) < length blk)%nat ->
  w_stdin w <> [] ->
  gets (Ptr b) w =
  Done (Ptr b)
       (set_mem (<[b := Some (overwrite 0 (take_line (w_stdin w) ++ [NUL]) blk)]> (w_mem w))
                (set_stdin (after_line (w_stdin w)) w)).
Proof.
  intros Hb Hlen Hne. unfold gets.
  remember (take_line (w_stdin w)) as line.
  remember (after_line (w_stdin w)) as tail.
  destruct (w_stdin w) as [|c i]; [congruence|].
  erewrite bind_done; [reflexivity|].
  apply (store_fits (set_stdin tail w) b blk); [exact Hb|].
  rewrite length_app. simpl. lia.
Qed.

Lemma long_line_nonempty (i : bytes) (n : nat) :
  (S n <= length (take_line i))%nat -> i <> [].
Proof. destruct i; simpl; [lia | discriminate]. Qed.



Lemma int_div_defined (a b : Z) (w : world) :
  b <> 0 -> ~ (a = INT_MIN /\ b = -1) -> int_div a b w = Done (Z.quot a b) w.
Proof.
  intros Hb Hov. unfold int_div.
  destruct (b =? 0) eqn:E0; [apply Z.eqb_eq in E0; contradiction|].
  destruct ((a =? INT_MIN) && (b =? -1)) eqn:E1; [|reflexivity].
  apply andb_true_iff in E1. destruct E1 as [E1 E2].
  apply Z.eqb_eq in E1, E2. tauto.
Qed.

Lemma int_div_zero (a : Z) (w : world) : int_div a 0 w = Fault DivisionByZero w.
Proof. reflexivity. Qed.

Lemma quot_in_int (a b : Z) :
  in_int a -> in_int b -> b <> 0 -> ~ (a = INT_MIN /\ b = -1) -> in_int (Z.quot a b).
Proof.
  unfold in_int, INT_MIN, INT_MAX. intros Ha Hb Hb0 Hov.
  assert (Habs : Z.abs (Z.quot a b) <= Z.abs a).
  { rewrite <- Z.quot_abs by assumption.
    apply Z.quot_le_upper_bound; [lia|].
    nia. }
  destruct (Z.eq_dec a (- 2 ^ 31)) as [->|Hne]; [|lia].
  assert (Hb1 : b <> -1) by tauto.
  destruct (Z.eq_dec b 1) as [->|Hb2]; [rewrite Z.quot_1_r; lia|].
  assert (Z.abs (Z.quot (- 2 ^ 31) b) <= 2 ^ 30); [|lia].
  rewrite <- Z.quot_abs by assumption.
  apply Z.quot_le_upper_bound; [lia|].
  change (Z.abs (- 2 ^ 31)) with (2 * 2 ^ 30). nia.
Qed.


(** ** The C fixture *)

Lemma c_statements_keep_result (s : CFixture.statement) :
  In s CFixture.body ->
  forall l w l' w', s l w = Done l' w' -> CFixture.result l' = CFixture.result l.
Proof.
  unfold CFixture.body. simpl.
  intros [<-|[<-|[<-|[<-|[<-|[<-|[<-|[<-|[]]]]]]]]] l w l' w' H.
  - unfold CFixture.line38 in H. bind_inv H. reflexivity.
  - unfold CFixture.line40 in H. bind_inv H. reflexivity.
  - unfold CFixture.line41 in H. bind_inv H. reflexivity.
  - unfold CFixture.line42 in H. bind_inv H. reflexivity.
  - unfold CFixture.line44 in H. bind_inv H. reflexivity.
  - unfold CFixture.line46 in H. bind_inv H. reflexivity.
  - unfold CFixture.line47 in H. bind_inv H.
    destruct a as [|u [|v r]]; reflexivity.
  - unfold CFixture.line48 in H. bind_inv H. reflexivity.
Qed.


(** ** The C++ fixture *)

Lemma cpp_run_app (ss1 ss2 : list CppFixture.statement) (e : CppFixture.env) (w : world) :
  CppFixture.run (ss1 ++ ss2) e w =
  match CppFixture.run ss1 e w with
  | Done e' w' => CppFixture.run ss2 e' w'
  | Fault f w' => Fault f w'
  end.
Proof.
  revert e w. induction ss1 as [|s ss1 IH]; intros e w; simpl.
  - reflexivity.
  - unfold bind. destruct (s e w) as [e1 w1|f w1]; [apply IH | reflexivity].
Qed.

Lemma cpp_statements_keep_secret (s : CppFixture.statement) :
  In s CppFixture.body ->
  forall e w e' w', s e w = Done e' w' ->
    CppFixture.api_secret e' = CppFixture.api_secret e.
Proof.
  unfold CppFixture.body. simpl.
  intros [<-|[<-|[<-|[<-|[<-|[<-|[]]]]]]] e w e' w' H.
  - unfold CppFixture.line45 in H. bind_inv H. reflexivity.
  - unfold CppFixture.line48 in H. bind_inv H. reflexivity.
  - unfold CppFixture.line49 in H. bind_inv H. reflexivity.
  - unfold CppFixture.line51 in H. bind_inv H. reflexivity.
  - unfold CppFixture.line53 in H. bind_inv H. reflexivity.
  - unfold CppFixture.line54 in H. bind_inv H. reflexivity.
Qed.


Lemma before_line51_state (e e' : CppFixture.env) (w w' : world) :
  CppFixture.run CppFixture.before_line51 e w = Done e' w' ->
  CppFixture.api_secret e' = CppFixture.api_secret e
  /\ exists o, CppFixture.obj e' = Some o.
Proof.
  unfold CppFixture.before_line51. simpl. intros H. bind_inv H.
  unfold CppFixture.line45 in Hstep. bind_inv Hstep.
  unfold CppFixture.line48 in Hstep0. bind_inv Hstep0.
  unfold CppFixture.line49 in Hstep1. bind_inv Hstep1.
  simpl. eauto.
Qed.


Lemma line51_output (e : CppFixture.env) (w : world) :
  CppFixture.line51 e w =
  Done e (set_stdout (w_stdout w ++ lit "API Secret: " ++ CppFixture.api_secret e ++ [LF]) w).
Proof.
  transitivity
    (Done e (set_stdout (((w_stdout w ++ lit "API Secret: ") ++ CppFixture.api_secret e) ++ [LF]) w)).
  - reflexivity.
  - now rewrite <- !app_assoc.
Qed.

Lemma line53_faults (e : CppFixture.env) (w : world) (o : CppFixture.UnsafeClass) :
  CppFixture.obj e = Some o -> CppFixture.line53 e w = Fault DivisionByZero w.
Proof. intros H. unfold CppFixture.line53. rewrite H. reflexivity. Qed.

Lemma main_from_line51 (e e' : CppFixture.env) (w w' : world) :
  CppFixture.run CppFixture.before_line51 e w = Done e' w' ->
  CppFixture.main e w =
  Fault DivisionByZero
        (set_stdout (w_stdout w' ++ lit "API Secret: " ++ CppFixture.api_secret e ++ [LF]) w').
Proof.
  intros H. destruct (before_line51_state _ _ _ _ H) as [Hs [o Ho]].
  unfold CppFixture.main.
  change CppFixture.body
    with (CppFixture.before_line51 ++ [CppFixture.line51; CppFixture.line53; CppFixture.line54]).
  apply bind_fault. rewrite cpp_run_app, H. simpl.
  erewrite bind_done by apply line51_output.
  apply bind_fault. rewrite Hs. apply (line53_faults _ _ o). exact Ho.
Qed.

Lemma main_from_line53 (e e' : CppFixture.env) (w w' : world) :
  CppFixture.run CppFixture.before_line53 e w = Done e' w' ->
  CppFixture.line53 e' w' = Fault DivisionByZero w'
  /\ CppFixture.main e w = Fault DivisionByZero w'.
Proof.
  unfold CppFixture.before_line53. rewrite cpp_run_app.
  destruct (CppFixture.run CppFixture.before_line51 e w) as [e1 w1|f w1] eqn:H; [|discriminate].
  simpl. intros H1. bind_inv H1. rewrite line51_output in Hstep.
  inversion Hstep; subst; clear Hstep.
  destruct (before_line51_state _ _ _ _ H) as [Hs [o Ho]].
  split.
  - apply (line53_faults _ _ o). exact Ho.
  - rewrite (main_from_line51 _ _ _ _ H). now rewrite Hs.
Qed.

Lemma main_never_returns (e : CppFixture.env) (w : world) :
  exists f w', CppFixture.main e w = Fault f w'.
Proof.
  destruct (CppFixture.run CppFixture.before_line51 e w) as [e1 w1|f w1] eqn:H.
  - rewrite (main_from_line51 _ _ _ _ H). eauto.
  - exists f, w1. unfold CppFixture.main.
    change CppFixture.body
      with (CppFixture.before_line51 ++ [CppFixture.line51; CppFixture.line53; CppFixture.line54]).
    apply bind_fault. now rewrite cpp_run_app, H.
Qed.


(** ** Strings in the store *)


Lemma until_nul_no_nul (s : bytes) : no_nul (until_nul s).
Proof.
  induction s as [|c s IH]; simpl; [constructor|].
  destruct (Ascii.eqb c NUL) eqn:E; constructor; [now apply Ascii.eqb_neq | assumption].
Qed.

Lemma holds_no_nul (w : world) (p : ptr) (s : bytes) : holds w p s -> no_nul s.
Proof. intros (blk & _ & H). now apply cstring_inv in H. Qed.

Lemma chars_value_no_nul (w : world) (data : chars) (s : bytes) :
  chars_value w data s -> no_nul s.
Proof.
  destruct data as [l|p]; simpl.
  - intros <-. apply until_nul_no_nul.
  - apply holds_no_nul.
Qed.

Lemma read_chars_value (w : world) (data : chars) (s : bytes) :
  chars_value w data s -> read_chars data w = Done s w.
Proof.
  destruct data as [l|p]; simpl.
  - intros <-. reflexivity.
  - apply load_cstr_holds.
Qed.

Lemma block_at_lookup (w : world) (b : nat) (blk : block) :
  block_at w (Ptr b) = Some blk <-> w_mem w !! b = Some (Some blk).
Proof.
  simpl. destruct (w_mem w !! b) as [[x|]|]; split; intros H; inversion H; reflexivity.
Qed.

Lemma block_at_push (w : world) (new : block) (p : ptr) (blk : block) :
  block_at w p = Some blk -> block_at (push_block new w) p = Some blk.
Proof.
  destruct p as [|b]; [discriminate|]. rewrite !block_at_lookup. apply lookup_old.
Qed.

Lemma holds_push (w : world) (new : block) (p : ptr) (s : bytes) :
  holds w p s -> holds (push_block new w) p s.
Proof. intros (blk & Hb & Hs). exists blk. split; [now apply block_at_push | exact Hs]. Qed.

Lemma chars_value_push (w : world) (new : block) (data : chars) (s : bytes) :
  chars_value w data s -> chars_value (push_block new w) data s.
Proof. destruct data; simpl; [trivial | apply holds_push]. Qed.

(** Writing a string behind the [d] a block begins with. *)
Lemma store_string (w : world) (n : nat) (d s : bytes) (rest : block) :
  w_mem w !! n = Some (Some (map Some d ++ rest)) ->
  (length s + 1 <= length rest)%nat ->
  store (Ptr n) (length d) (s ++ [NUL]) w =
  Done tt (set_mem (<[n := Some (map Some (d ++ s) ++ Some NUL :: drop (length s + 1) rest)]>
                      (w_mem w)) w).
Proof.
  intros Hb Hlen. rewrite (store_fits w n _ _ _ Hb).
  - rewrite overwrite_after. rewrite length_app. simpl length.
    rewrite !map_app. simpl. now rewrite <- !app_assoc.
  - rewrite !length_app, length_map. simpl. lia.
Qed.

Lemma holds_stored (w : world) (n : nat) (s : bytes) (rest : block) :
  (n < length (w_mem w))%nat -> no_nul s ->
  holds (set_mem (<[n := Some (map Some s ++ Some NUL :: rest)]> (w_mem w)) w) (Ptr n) s.
Proof.
  intros Hn Hs. eexists. split.
  - apply block_at_lookup. simpl. now apply list_lookup_insert_eq.
  - now apply cstring_holds.
Qed.

Lemma no_nul_app (a b : bytes) : no_nul a -> no_nul b -> no_nul (a ++ b).
Proof. unfold no_nul. intros. now apply Forall_app. Qed.

Lemma malloc_succeeds (w : world) (n : nat) :
  (n <= w_avail w)%nat ->
  malloc n w = Done (Ptr (length (w_mem w)))
                    (World (w_stdin w) (w_stdout w) (w_mem w ++ [Some (fresh_block n)])
                           (w_avail w - n) (w_shell w)).
Proof. intros H. unfold malloc. apply Nat.leb_le in H. now rewrite H. Qed.

Lemma malloc_fails (w : world) (n : nat) :
  (w_avail w < n)%nat -> malloc n w = Done NULL w.
Proof. intros H. unfold malloc. apply Nat.leb_gt in H. now rewrite H. Qed.

Lemma buildGreeting_null (w : world) (p : ptr) :
  (w_avail w < 50)%nat -> CFixture.buildGreeting p w = Fault NullDereference w.
Proof.
  intros H. unfold CFixture.buildGreeting.
  rewrite (bind_done _ _ _ _ _ (malloc_fails w 50 H)). reflexivity.
Qed.

Lemma buildGreeting_greets (w : world) (b : nat) (s : bytes) :
  holds w (Ptr b) s -> (length s <= 43)%nat -> (50 <= w_avail w)%nat ->
  exists w',
    CFixture.buildGreeting (Ptr b) w = Done (Ptr (length (w_mem w))) w'
    /\ holds w' (Ptr (length (w_mem w))) (lit "Hello " ++ s)
    /\ (forall blk, block_at w' (Ptr (length (w_mem w))) = Some blk -> length blk = 50%nat)
    /\ (forall i, (i < length (w_mem w))%nat -> w_mem w' !! i = w_mem w !! i)
    /\ w_stdin w' = w_stdin w /\ w_stdout w' = w_stdout w.
Proof.
  intros Hs Hlen Hav.
  pose proof (holds_no_nul _ _ _ Hs) as Hnn.
  destruct Hs as (blk & Hb & Hc). apply block_at_lookup in Hb.
  pose proof (lookup_lt_Some _ _ _ Hb) as Hlt.
  set (n := length (w_mem w)) in *.
  set (hello := lit "Hello ").
  set (w1 := World (w_stdin w) (w_stdout w) (w_mem w ++ [Some (fresh_block 50)])
                   (w_avail w - 50) (w_shell w)).
  set (rest := Some NUL :: drop 7 (fresh_block 50)).
  set (w2 := set_mem (<[n := Some (map Some hello ++ rest)]> (w_mem w1)) w1).
  set (w3 := set_mem (<[n := Some (map Some (hello ++ s) ++ Some NUL :: drop (length s + 1) rest)]>
                        (w_mem w2)) w2).
  assert (Hn1 : (n < length (w_mem w1))%nat).
  { simpl. rewrite length_app. simpl. lia. }
  assert (H2n : w_mem w2 !! n = Some (Some (map Some hello ++ rest))).
  { simpl. now apply list_lookup_insert_eq. }
  assert (H2b : w_mem w2 !! b = Some (Some blk)).
  { simpl. rewrite list_lookup_insert_ne by lia. now apply lookup_old. }
  exists w3. split; [|split; [|split; [|split; [|split]]]].
  - unfold CFixture.buildGreeting.
    rewrite (bind_done _ _ _ _ _ (malloc_succeeds w 50 Hav)). fold n w1.
    assert (Hcpy : strcpy (Ptr n) (Lit "Hello ") w1 = Done (Ptr n) w2).
    { unfold strcpy. erewrite bind_done by reflexivity.
      erewrite bind_done; [reflexivity|].
      apply (store_string w1 n [] hello (fresh_block 50)).
      - apply lookup_pushed.
      - vm_compute. lia. }
    rewrite (bind_done _ _ _ _ _ Hcpy).
    assert (Hcat : strcat (Ptr n) (At (Ptr b)) w2 = Done (Ptr n) w3).
    { unfold strcat.
      erewrite bind_done.
      2:{ apply load_cstr_holds. exists (map Some hello ++ rest). split.
          - now apply block_at_lookup.
          - apply cstring_holds. vm_compute. repeat constructor; discriminate. }
      erewrite bind_done.
      2:{ apply load_cstr_holds. exists blk. split; [now apply block_at_lookup | exact Hc]. }
      erewrite bind_done; [reflexivity|].
      apply (store_string w2 n hello s rest); [exact H2n|].
      change (length rest) with 44%nat. lia. }
    rewrite (bind_done _ _ _ _ _ Hcat). reflexivity.
  - apply (holds_stored w2 n (hello ++ s)).
    + simpl. now rewrite length_insert.
    + apply no_nul_app; [|exact Hnn]. vm_compute. repeat constructor; discriminate.
  - intros blk' Hblk. apply block_at_lookup in Hblk. simpl in Hblk.
    rewrite list_lookup_insert_eq in Hblk by (now rewrite length_insert).
    inversion Hblk; subst blk'; clear Hblk.
    cbn [length]. rewrite length_app, length_map. cbn [length].
    rewrite length_drop. change (length rest) with 44%nat. lia.
  - intros i Hi. simpl. rewrite !list_lookup_insert_ne by lia.
    apply lookup_app_l. exact Hi.
  - reflexivity.
  - reflexivity.
Qed.

Lemma format_string (w : world) (fmt : string) (data : chars) (s out : bytes) :
  chars_value w data s ->
  expand false (until_nul (lit fmt)) [inr s] = Some out ->
  format fmt [AStr data] w = Done out w.
Proof.
  intros Hv He. unfold format.
  erewrite bind_done.
  2:{ simpl. erewrite bind_done.
      2:{ erewrite bind_done by (apply read_chars_value; exact Hv). reflexivity. }
      reflexivity. }
  now rewrite He.
Qed.

Lemma sprintf_fits (w : world) (n : nat) (blk : block) (fmt : string) (args : list arg)
  (out : bytes) :
  w_mem w !! n = Some (Some blk) ->
  format fmt args w = Done out w ->
  (length out + 1 <= length blk)%nat ->
  sprintf (Ptr n) fmt args w =
  Done tt (set_mem (<[n := Some (map Some out ++ Some NUL :: drop (length out + 1) blk)]>
                      (w_mem w)) w).
Proof.
  intros Hb Hf Hlen. unfold sprintf. rewrite (bind_done _ _ _ _ _ Hf).
  apply (store_string w n [] out blk); assumption.
Qed.

Lemma sprintf_overflows (w : world) (n : nat) (blk : block) (fmt : string) (args : list arg)
  (out : bytes) :
  w_mem w !! n = Some (Some blk) ->
  format fmt args w = Done out w ->
  (length blk < length out + 1)%nat ->
  sprintf (Ptr n) fmt args w = Fault BufferOverflow w.
Proof.
  intros Hb Hf Hlen. unfold sprintf. rewrite (bind_done _ _ _ _ _ Hf).
  apply (store_overflows w n blk); [assumption|]. rewrite length_app. simpl. lia.
Qed.


Lemma expand_c_query (s : bytes) :
  expand false (until_nul (lit CFixture.query_format)) [inr s]
  = Some (select_prefix ++ s ++ lit "';").
Proof. reflexivity. Qed.

Lemma expand_cpp_query (s : bytes) :
  expand false (until_nul (lit CppFixture.query_format)) [inr s]
  = Some (select_prefix ++ s ++ lit "'").
Proof. reflexivity. Qed.

Lemma expand_executing (s : bytes) :
  expand false (until_nul (lit "Executing query: %s\n")) [inr s]
  = Some (lit "Executing query: " ++ s ++ [LF]).
Proof. reflexivity. Qed.

Lemma no_nul_select_prefix : no_nul select_prefix.
Proof. vm_compute. repeat constructor; discriminate. Qed.

Lemma queryDatabase_interpolates (w : world) (p : ptr) (s : bytes) :
  holds w p s -> (length s <= 163)%nat ->
  let q := select_prefix ++ s ++ lit "';" in
  exists w1 w2 w',
    local_array 200 w = Done (Ptr (length (w_mem w))) w1
    /\ sprintf (Ptr (length (w_mem w))) CFixture.query_format [AStr (At p)] w1 = Done tt w2
    /\ holds w2 (Ptr (length (w_mem w))) q
    /\ CFixture.queryDatabase p w = Done tt w'
    /\ w_stdout w' = w_stdout w ++ lit "Executing query: " ++ q ++ [LF].
Proof.
  intros Hs Hlen q.
  pose proof (holds_no_nul _ _ _ Hs) as Hnn.
  set (n := length (w_mem w)).
  set (w1 := push_block (fresh_block 200) w).
  assert (Hq : no_nul q).
  { apply no_nul_app; [apply no_nul_select_prefix|].
    apply no_nul_app; [exact Hnn|]. vm_compute. repeat constructor; discriminate. }
  assert (Hlq : (length q + 1 <= 200)%nat).
  { unfold q. rewrite !length_app. change (length select_prefix) with 34%nat.
    change (length (lit "';")) with 2%nat. lia. }
  assert (Hf : format CFixture.query_format [AStr (At p)] w1 = Done q w1).
  { apply (format_string w1 _ (At p) s); [now apply holds_push | apply expand_c_query]. }
  pose proof (sprintf_fits w1 n (fresh_block 200) _ _ q (lookup_pushed _ _) Hf Hlq) as Hsp.
  set (w2 := set_mem (<[n := Some (map Some q ++ Some NUL :: drop (length q + 1) (fresh_block 200))]>
                        (w_mem w1)) w1) in *.
  assert (Hh : holds w2 (Ptr n) q).
  { apply (holds_stored w1 n q); [|exact Hq]. simpl. rewrite length_app. simpl. lia. }
  exists w1, w2. eexists. split; [reflexivity|]. split; [exact Hsp|]. split; [exact Hh|].
  split.
  - unfold CFixture.queryDatabase.
    erewrite bind_done by reflexivity. fold n w1.
    rewrite (bind_done _ _ _ _ _ Hsp).
    erewrite bind_done.
    2:{ unfold printf. erewrite bind_done.
        2:{ apply (format_string w2 _ (At (Ptr n)) q); [exact Hh | apply expand_executing]. }
        reflexivity. }
    reflexivity.
  - reflexivity.
Qed.

Lemma processData_interpolates (w : world) (this : CppFixture.UnsafeClass)
  (data : chars) (s : bytes) :
  chars_value w data s -> (length s <= 164)%nat ->
  let q := select_prefix ++ s ++ lit "'" in
  exists w1 w2 w',
    local_array 200 w = Done (Ptr (length (w_mem w))) w1
    /\ sprintf (Ptr (length (w_mem w))) CppFixture.query_format [AStr data] w1 = Done tt w2
    /\ holds w2 (Ptr (length (w_mem w))) q
    /\ CppFixture.processData this data w = Done tt w'
    /\ w_stdout w' = w_stdout w ++ q ++ [LF].
Proof.
  intros Hs Hlen q.
  pose proof (chars_value_no_nul _ _ _ Hs) as Hnn.
  set (n := length (w_mem w)).
  set (w1 := push_block (fresh_block 200) w).
  assert (Hq : no_nul q).
  { apply no_nul_app; [apply no_nul_select_prefix|].
    apply no_nul_app; [exact Hnn|]. vm_compute. repeat constructor; discriminate. }
  assert (Hlq : (length q + 1 <= 200)%nat).
  { unfold q. rewrite !length_app. change (length select_prefix) with 34%nat.
    change (length (lit "'")) with 1%nat. lia. }
  assert (Hf : format CppFixture.query_format [AStr data] w1 = Done q w1).
  { apply (format_string w1 _ data s); [now apply chars_value_push | apply expand_cpp_query]. }
  pose proof (sprintf_fits w1 n (fresh_block 200) _ _ q (lookup_pushed _ _) Hf Hlq) as Hsp.
  set (w2 := set_mem (<[n := Some (map Some q ++ Some NUL :: drop (length q + 1) (fresh_block 200))]>
                        (w_mem w1)) w1) in *.
  assert (Hh : holds w2 (Ptr n) q).
  { apply (holds_stored w1 n q); [|exact Hq]. simpl. rewrite length_app. simpl. lia. }
  exists w1, w2. eexists. split; [reflexivity|]. split; [exact Hsp|]. split; [exact Hh|].
  split.
  - unfold CppFixture.processData.
    erewrite bind_done by reflexivity. fold n w1.
    rewrite (bind_done _ _ _ _ _ Hsp).
    erewrite bind_done.
    2:{ unfold cout_chars. erewrite bind_done by (apply load_cstr_holds; exact Hh).
        reflexivity. }
    reflexivity.
  - simpl. now rewrite <- app_assoc.
Qed.

(** * The claims *)

(** ** C1: division *)

(** C1, as amended.  For all [int] values [a] and [b] with [b] nonzero,
    other than [a = INT_MIN] with [b = -1], both [divide] functions return
    the quotient truncated towards zero, and it is an [int]; neither checks
    the divisor, so a zero divisor reaches the division-by-zero fault.  The
    C++ [main] has the statement of line 53, [obj.divide(10, 0)]: in every
    run that gets as far as that line, the call faults with division by
    zero, and so [main] never returns. *)
Theorem divide_truncates_unless_undefined (a b : Z) :
  in_int a -> in_int b -> b <> 0 -> ~ (a = INT_MIN /\ b = -1) ->
  (forall w, CFixture.divide a b w = Done (Z.quot a b) w)
  /\ (forall this w, CppFixture.divide this a b w = Done (Z.quot a b) w)
  /\ in_int (Z.quot a b)
  /\ (forall w, CFixture.divide a 0 w = Fault DivisionByZero w)
  /\ (forall this w, CppFixture.divide this a 0 w = Fault DivisionByZero w)
  /\ In CppFixture.line53 CppFixture.body
  /\ (forall e w e' w',
        CppFixture.run CppFixture.before_line53 e w = Done e' w' ->
        CppFixture.line53 e' w' = Fault DivisionByZero w'
        /\ CppFixture.main e w = Fault DivisionByZero w')
  /\ (forall e w, exists f w', CppFixture.main e w = Fault f w').
Proof.
  intros Ha Hb Hb0 Hov.
  split; [intros w; now apply int_div_defined|].
  split; [intros this w; now apply int_div_defined|].
  split; [now apply quot_in_int|].
  split; [intros w; apply int_div_zero|].
  split; [intros this w; apply int_div_zero|].
  split; [unfold CppFixture.body; simpl; tauto|].
  split; [intros e w e' w'; apply main_from_line53 | exact main_never_returns].
Qed.

Lemma divide_truncates_witness :
  CFixture.divide (-7) 2 (initial_world [] 0) = Done (-3) (initial_world [] 0).
Proof.
  apply (divide_truncates_unless_undefined (-7) 2).
  - unfold in_int, INT_MIN, INT_MAX. lia.
  - unfold in_int, INT_MIN, INT_MAX. lia.
  - lia.
  - lia.
Defined.

(** C1, as stated, fails at [INT_MIN / -1]: the quotient [2^31] is not an
    [int], and the division is undefined rather than returned. *)
Lemma divide_min_by_minus_one :
  CFixture.divide INT_MIN (-1) (initial_world [] 0)
  = Fault SignedOverflow (initial_world [] 0)
  /\ ~ in_int (Z.quot INT_MIN (-1))
  /\ ~ (forall a b : Z, in_int a -> in_int b -> b <> 0 ->
        forall w, CFixture.divide a b w = Done (Z.quot a b) w).
Proof.
  split; [reflexivity|]. split.
  - unfold in_int, INT_MIN, INT_MAX. vm_compute. intros [_ H]. apply H. reflexivity.
  - intros H.
    assert (Hmin : in_int INT_MIN) by (unfold in_int, INT_MIN, INT_MAX; lia).
    assert (Hone : in_int (-1)) by (unfold in_int, INT_MIN, INT_MAX; lia).
    specialize (H INT_MIN (-1) Hmin Hone ltac:(lia) (initial_world [] 0)).
    discriminate H.
Qed.

(** ** C4: [gets] into fixed arrays *)

(** C4.  Let the next input line have 10 bytes or more.  Then
    [getUserInput], called on a 10-byte array, writes past its end; the
    array [main] declares and passes is such an array.  When the line has 50
    bytes or more, [unsafeInput] writes past the end of its own 50-byte
    array. *)
Theorem gets_overflows_fixed_buffers (w : world) (b : nat) (blk : block) :
  w_mem w !! b = Some (Some blk) -> length blk = 10%nat ->
  (10 <= length (next_line w))%nat ->
  (exists w', CFixture.getUserInput (Ptr b) w = Fault BufferOverflow w')
  /\ (forall (w0 w1 : world) (l : CFixture.locals),
        CFixture.declarations w0 = Done l w1 ->
        exists n, CFixture.name l = Ptr n
                  /\ w_mem w1 !! n = Some (Some (fresh_block 10))
                  /\ length (fresh_block 10) = 10%nat
                  /\ w_stdin w1 = w_stdin w0)
  /\ (forall this : CppFixture.UnsafeClass,
        (50 <= length (next_line w))%nat ->
        exists w', CppFixture.unsafeInput this w = Fault BufferOverflow w').
Proof.
  unfold next_line. intros Hb Hcap Hline.
  split; [|split].
  - eexists. unfold CFixture.getUserInput.
    erewrite bind_done by reflexivity.
    apply bind_fault. apply (gets_overflows _ b blk).
    + exact Hb.
    + simpl. lia.
    + simpl. eapply long_line_nonempty. exact Hline.
  - intros w0 w1 l H. unfold CFixture.declarations in H. bind_inv H.
    unfold local_array in Hstep. inversion Hstep; subst; clear Hstep.
    eexists. split; [reflexivity|].
    split; [apply lookup_pushed | split; reflexivity].
  - intros this Hline'. eexists. unfold CppFixture.unsafeInput.
    erewrite bind_done by reflexivity.
    erewrite bind_done by reflexivity.
    apply bind_fault.
    apply (gets_overflows _ (length (w_mem w)) (fresh_block 50)).
    + apply lookup_pushed.
    + simpl. exact Hline'.
    + simpl. eapply long_line_nonempty. exact Hline'.
Qed.

Lemma gets_overflows_witness :
  exists w',
    CFixture.getUserInput (Ptr 0) (Samples.typing "0123456789\n") = Fault BufferOverflow w'.
Proof.
  apply (gets_overflows_fixed_buffers (Samples.typing "0123456789\n") 0 (fresh_block 10)).
  - reflexivity.
  - reflexivity.
  - vm_compute. lia.
Defined.

(** ** C5: the read of [result] *)

(** C5.  After the declarations of the C [main], [result] has no value;
    the first statement, line 38, reads it, and the read finds nothing:
    every run of [main] faults there.  No statement of [main] assigns
    [result], and in the text the identifier stands in the code twice only,
    at its declaration (followed by [;]) and as the argument of line 38
    (followed by [)]). *)
Theorem result_read_uninitialized (w w1 : world) (l : CFixture.locals) :
  CFixture.declarations w = Done l w1 ->
  CFixture.result l = None
  /\ head CFixture.body = Some CFixture.line38
  /\ rvalue (CFixture.result l) w1 = Fault UninitializedRead w1
  /\ CFixture.line38 l w1 = Fault UninitializedRead w1
  /\ CFixture.main w = Fault UninitializedRead w1
  /\ (forall s : CFixture.statement, In s CFixture.body ->
        forall l0 w0 l' w', s l0 w0 = Done l' w' -> CFixture.result l' = CFixture.result l0)
  /\ Scanner.occurrences Source.unsafe_c_code "result"
     = [((35, 15), Some ";"%char); ((38, 43), Some ")"%char)]%nat.
Proof.
  intros H.
  assert (Hr : CFixture.result l = None).
  { unfold CFixture.declarations in H. bind_inv H. reflexivity. }
  assert (H38 : CFixture.line38 l w1 = Fault UninitializedRead w1).
  { unfold CFixture.line38. rewrite Hr. reflexivity. }
  split; [exact Hr|]. split; [reflexivity|].
  split; [rewrite Hr; reflexivity|]. split; [exact H38|].
  split; [|split; [exact c_statements_keep_result | vm_compute; reflexivity]].
  unfold CFixture.main. rewrite (bind_done _ _ _ _ _ H).
  apply bind_fault. unfold CFixture.body. simpl. apply bind_fault. exact H38.
Qed.

Lemma result_read_witness :
  exists w1, CFixture.main (initial_world (lit "bob\n4 2\n") 64) = Fault UninitializedRead w1.
Proof.
  eexists.
  refine (proj1 (proj2 (proj2 (proj2 (proj2
    (result_read_uninitialized (initial_world (lit "bob\n4 2\n") 64) _ _ _)))))).
  reflexivity.
Defined.

(** ** C7: the secret on the standard output *)

(** C7.  Take any run of the C++ program in which the statements before
    line 51 complete.  Then [api_secret] still is its initial value
    ["sk-abc123456789"], and what the program has written to the standard
    output when it ends contains ["API Secret: sk-abc123456789"], whatever
    the input was.  No statement of [main] writes [api_secret]. *)
Theorem api_secret_exposed (w : world) (e' : CppFixture.env) (w' : world) :
  CppFixture.run CppFixture.before_line51
                 (CppFixture.Env CppFixture.api_secret_init None None) w
  = Done e' w' ->
  CppFixture.api_secret e' = lit "sk-abc123456789"
  /\ CppFixture.line51 e' w'
     = Done e' (set_stdout (w_stdout w' ++ lit "API Secret: sk-abc123456789" ++ [LF]) w')
  /\ occurs_in (lit "API Secret: sk-abc123456789")
               (w_stdout (final_world (CppFixture.program w)))
  /\ (forall s : CppFixture.statement, In s CppFixture.body ->
        forall e0 w0 e1 w1, s e0 w0 = Done e1 w1 ->
          CppFixture.api_secret e1 = CppFixture.api_secret e0).
Proof.
  intros H.
  destruct (before_line51_state _ _ _ _ H) as [Hs _]. simpl in Hs.
  split; [rewrite Hs; reflexivity|].
  split; [rewrite line51_output, Hs; reflexivity|].
  split; [|exact cpp_statements_keep_secret].
  unfold CppFixture.program. rewrite (main_from_line51 _ _ _ _ H). simpl.
  exists (w_stdout w'), [LF]. reflexivity.
Qed.

Lemma api_secret_exposed_witness :
  occurs_in (lit "API Secret: sk-abc123456789")
            (w_stdout (final_world (CppFixture.program (initial_world (lit "bob\n") 128)))).
Proof.
  refine (proj1 (proj2 (proj2
    (api_secret_exposed (initial_world (lit "bob\n") 128) _ _ _)))).
  vm_compute. reflexivity.
Defined.

(** ** C3: the queries *)

(** C3.  Let [s] be a string (it has no null byte) that [p] points to and
    that [data] stands for.  If the result fits the 200-byte [query] array,
    [queryDatabase] builds in it ["SELECT * FROM users WHERE name = '" ++ s
    ++ "';"] and prints it after ["Executing query: "], and [processData]
    builds and prints ["SELECT * FROM users WHERE name = '" ++ s ++ "'"]:
    [s] is copied as it is.  Both format literals, which stand on lines 24
    and 28 of the texts, contain [SELECT] and [%s], so FORMATTED_QUERY fires
    on both statements. *)
Theorem queries_interpolate_verbatim (w : world) (p : ptr) (data : chars) (s : bytes) :
  holds w p s -> chars_value w data s ->
  no_nul s
  /\ ((length (select_prefix ++ s ++ lit "';") + 1 <= 200)%nat ->
      exists w1 w2 w',
        local_array 200 w = Done (Ptr (length (w_mem w))) w1
        /\ sprintf (Ptr (length (w_mem w))) CFixture.query_format [AStr (At p)] w1
           = Done tt w2
        /\ holds w2 (Ptr (length (w_mem w))) (select_prefix ++ s ++ lit "';")
        /\ CFixture.queryDatabase p w = Done tt w'
        /\ w_stdout w'
           = w_stdout w ++ lit "Executing query: " ++ (select_prefix ++ s ++ lit "';") ++ [LF])
  /\ ((length (select_prefix ++ s ++ lit "'") + 1 <= 200)%nat ->
      forall this : CppFixture.UnsafeClass,
      exists w1 w2 w',
        local_array 200 w = Done (Ptr (length (w_mem w))) w1
        /\ sprintf (Ptr (length (w_mem w))) CppFixture.query_format [AStr data] w1
           = Done tt w2
        /\ holds w2 (Ptr (length (w_mem w))) (select_prefix ++ s ++ lit "'")
        /\ CppFixture.processData this data w = Done tt w'
        /\ w_stdout w' = w_stdout w ++ (select_prefix ++ s ++ lit "'") ++ [LF])
  /\ Scanner.literals_on_line Source.unsafe_c_code 24 = [of_string CFixture.query_format]
  /\ Scanner.literals_on_line Source.test_cpp_issues 28 = [of_string CppFixture.query_format]
  /\ Scanner.formatted_query_literal (of_string CFixture.query_format) = true
  /\ Scanner.formatted_query_literal (of_string CppFixture.query_format) = true
  /\ Scanner.formatted_query Source.unsafe_c_code
     = [Scanner.Finding Scanner.FORMATTED_QUERY 24 5 7]
  /\ Scanner.formatted_query Source.test_cpp_issues
     = [Scanner.Finding Scanner.FORMATTED_QUERY 28 9 7].
Proof.
  intros Hp Hd.
  split; [exact (holds_no_nul _ _ _ Hp)|].
  split.
  { intros Hlen. apply queryDatabase_interpolates; [exact Hp|].
    rewrite !length_app in Hlen. change (length select_prefix) with 34%nat in Hlen.
    change (length (lit "';")) with 2%nat in Hlen. lia. }
  split.
  { intros Hlen this. apply processData_interpolates; [exact Hd|].
    rewrite !length_app in Hlen. change (length select_prefix) with 34%nat in Hlen.
    change (length (lit "'")) with 1%nat in Hlen. lia. }
  split; [vm_compute; reflexivity|]. split; [vm_compute; reflexivity|].
  split; [vm_compute; reflexivity|]. split; [vm_compute; reflexivity|].
  split; vm_compute; reflexivity.
Qed.

Lemma queries_interpolate_witness :
  holds (Samples.named "a' OR '1" "" 0) (Ptr 0) (lit "a' OR '1")
  /\ exists w',
       CFixture.queryDatabase (Ptr 0) (Samples.named "a' OR '1" "" 0) = Done tt w'
       /\ w_stdout w'
          = lit "Executing query: SELECT * FROM users WHERE name = 'a' OR '1';\n".
Proof.
  assert (H : holds (Samples.named "a' OR '1" "" 0) (Ptr 0) (lit "a' OR '1")).
  { eexists. split; reflexivity. }
  split; [exact H|].
  destruct (queries_interpolate_verbatim _ (Ptr 0) (At (Ptr 0)) _ H H)
    as (_ & HC & _).
  destruct HC as (w1 & w2 & w' & _ & _ & _ & Hq & Hout); [vm_compute; lia|].
  exists w'. split; [exact Hq | exact Hout].
Defined.

(** ** C10: [buildGreeting] *)

(** C10, as amended.  Let [name] point to a string [s] of at most 43 bytes
    and let the allocation of line 15 succeed.  Then [buildGreeting] returns
    a pointer to a fresh 50-byte heap block that holds ["Hello " ++ s], and
    every block that existed before, the caller's [name] array among them,
    is as it was. *)
Theorem buildGreeting_greets_when_allocated (w : world) (b : nat) (s : bytes) :
  holds w (Ptr b) s -> (length s <= 43)%nat -> (50 <= w_avail w)%nat ->
  exists w',
    CFixture.buildGreeting (Ptr b) w = Done (Ptr (length (w_mem w))) w'
    /\ w_mem w !! length (w_mem w) = None
    /\ holds w' (Ptr (length (w_mem w))) (lit "Hello " ++ s)
    /\ (forall blk, block_at w' (Ptr (length (w_mem w))) = Some blk -> length blk = 50%nat)
    /\ (forall i, (i < length (w_mem w))%nat -> w_mem w' !! i = w_mem w !! i)
    /\ holds w' (Ptr b) s.
Proof.
  intros Hs Hlen Hav.
  destruct (buildGreeting_greets w b s Hs Hlen Hav) as (w' & Hrun & Hh & Hcap & Hold & _).
  exists w'. split; [exact Hrun|].
  split; [apply lookup_ge_None; lia|].
  split; [exact Hh|]. split; [exact Hcap|]. split; [exact Hold|].
  destruct Hs as (blk & Hb & Hc). exists blk. split; [|exact Hc].
  apply block_at_lookup in Hb. apply block_at_lookup.
  rewrite Hold; [exact Hb | now apply lookup_lt_Some in Hb].
Qed.

Lemma buildGreeting_greets_witness :
  exists w',
    CFixture.buildGreeting (Ptr 0) (Samples.named "bob" "" 64) = Done (Ptr 1) w'
    /\ holds w' (Ptr 1) (lit "Hello bob")
    /\ holds w' (Ptr 0) (lit "bob").
Proof.
  destruct (buildGreeting_greets_when_allocated (Samples.named "bob" "" 64) 0 (lit "bob"))
    as (w' & Hrun & _ & Hh & _ & _ & Hn).
  - eexists. split; reflexivity.
  - vm_compute. lia.
  - vm_compute. lia.
  - exists w'. split; [exact Hrun | split; [exact Hh | exact Hn]].
Defined.

(** C10, as stated, fails when the allocation fails: [malloc] returns a null
    pointer, which line 16 hands to [strcpy] unchecked. *)
Lemma buildGreeting_without_memory :
  holds (Samples.named "bob" "" 0) (Ptr 0) (lit "bob")
  /\ CFixture.buildGreeting (Ptr 0) (Samples.named "bob" "" 0)
     = Fault NullDereference (Samples.named "bob" "" 0)
  /\ ~ (forall (w : world) (b : nat) (s : bytes),
          holds w (Ptr b) s -> (length s <= 43)%nat ->
          exists g w', CFixture.buildGreeting (Ptr b) w = Done g w'
                       /\ holds w' g (lit "Hello " ++ s)).
Proof.
  assert (H : holds (Samples.named "bob" "" 0) (Ptr 0) (lit "bob")).
  { eexists. split; reflexivity. }
  split; [exact H|]. split; [reflexivity|].
  intros Hall.
  destruct (Hall _ 0%nat _ H) as (g & w' & Hrun & _); [vm_compute; lia|].
  discriminate Hrun.
Qed.

(** * The claims about the texts *)

Section Texts.
Import Source Scanner.
Local Open Scope nat_scope.

(** A closed fact about a text is settled by evaluating it. *)
Ltac by_evaluation := vm_compute; first [reflexivity | tauto].

(** The texts have the sizes of the files: 1409 and 1642 bytes, in 53 and
    58 lines. *)
Lemma texts_have_file_sizes :
  length unsafe_c_code = 1409 /\ length test_cpp_issues = 1642
  /\ length unsafe_c_code_lines = 53 /\ length test_cpp_issues_lines = 58.
Proof. repeat split; vm_compute; reflexivity. Qed.

(** C2.  Both fixtures satisfy the Token-near-literal condition of
    HARDCODED_SECRET.  In the C text the identifier [global_password]
    (line 5, column 6), in which [password] matches, begins 20 bytes before
    the assignment operator, which is followed by the literal ["admin123"]
    of length 8; in the C++ text [api_secret] (line 8, column 8), in which
    [secret] matches, begins 11 bytes before the operator, which is followed
    by ["sk-abc123456789"] of length 15.  The rule fires once in each text,
    at the literal.  The two literals are what the programs initialise
    [global_password] and [api_secret] with. *)
Theorem hardcoded_secrets_near_literals :
  secret_evidence unsafe_c_code
  = [((5, 6), of_string "global_password", (5, 26), (5, 28), of_string "admin123", 20)]
  /\ secret_evidence test_cpp_issues
     = [((8, 8), of_string "api_secret", (8, 19), (8, 21), of_string "sk-abc123456789", 11)]
  /\ search false secret_name (of_string "global_password") = true
  /\ search false secret_name (of_string "api_secret") = true
  /\ length (of_string "admin123") = 8
  /\ length (of_string "sk-abc123456789") = 15
  /\ min_literal <= 8 /\ 20 <= near /\ 11 <= near
  /\ hardcoded_secret unsafe_c_code = [Finding HARDCODED_SECRET 5 28 10]
  /\ hardcoded_secret test_cpp_issues = [Finding HARDCODED_SECRET 8 21 17]
  /\ (exists w', CFixture.global_password (initial_world [] 0) = Done (Ptr 0) w'
                  /\ holds w' (Ptr 0) (of_string "admin123"))
  /\ CppFixture.api_secret_init = of_string "sk-abc123456789".
Proof.
  split; [vm_compute; reflexivity|].
  split; [vm_compute; reflexivity|].
  split; [vm_compute; reflexivity|].
  split; [vm_compute; reflexivity|].
  split; [reflexivity|]. split; [reflexivity|].
  split; [unfold min_literal; lia|].
  split; [unfold near; lia|]. split; [unfold near; lia|].
  split; [vm_compute; reflexivity|]. split; [vm_compute; reflexivity|].
  split; [|reflexivity].
  eexists. split; [reflexivity|]. eexists. split; reflexivity.
Qed.

(** C6.  In both texts every occurrence of [free] or [delete] lies in a
    line comment.  The C text has one allocation site, the [malloc] of
    line 15, received by [greet], in the block from line 14 to line 19; the
    C++ text has one, the [malloc] of line 16, received by [buffer], in the
    block from line 15 to line 17.  Neither block has a release in its code,
    so the leak condition holds at both sites and POSSIBLE_MEMORY_LEAK fires
    there. *)
Theorem no_release_outside_comments :
  matches_of unsafe_c_code release = [((15, 54), line_comment); ((50, 18), line_comment)]
  /\ matches_of test_cpp_issues release = [((57, 17), line_comment)]
  /\ map (fun p => locate unsafe_c_code (p_off p)) (allocation_sites unsafe_c_code)
     = [(15, 19)]
  /\ map (fun p => locate test_cpp_issues (p_off p)) (allocation_sites test_cpp_issues)
     = [(16, 25)]
  /\ (let site := offset_of unsafe_c_code 15 19 in
      let block := enclosing_block unsafe_c_code site in
      locate unsafe_c_code (fst block) = (14, 33)
      /\ locate unsafe_c_code (snd block) = (19, 1)
      /\ receiver unsafe_c_code site = Some (of_string "greet")
      /\ releases unsafe_c_code (fst block) (snd block) = [])
  /\ (let site := offset_of test_cpp_issues 16 25 in
      let block := enclosing_block test_cpp_issues site in
      locate test_cpp_issues (fst block) = (15, 19)
      /\ locate test_cpp_issues (snd block) = (17, 5)
      /\ receiver test_cpp_issues site = Some (of_string "buffer")
      /\ releases test_cpp_issues (fst block) (snd block) = [])
  /\ forallb (leaks unsafe_c_code) (allocation_sites unsafe_c_code) = true
  /\ forallb (leaks test_cpp_issues) (allocation_sites test_cpp_issues) = true
  /\ possible_memory_leak unsafe_c_code = [Finding POSSIBLE_MEMORY_LEAK 15 19 6]
  /\ possible_memory_leak test_cpp_issues = [Finding POSSIBLE_MEMORY_LEAK 16 25 6].
Proof.
  split; [vm_compute; reflexivity|].
  split; [vm_compute; reflexivity|].
  split; [vm_compute; reflexivity|].
  split; [vm_compute; reflexivity|].
  split; [vm_compute; repeat split|].
  split; [vm_compute; repeat split|].
  split; [vm_compute; reflexivity|].
  split; [vm_compute; reflexivity|].
  split; vm_compute; reflexivity.
Qed.

(** C8, as amended.  The statement of line 38 of the C++ text calls the
    output primitive [cout] with the literal ["Debug mode active"], and
    [debugFunction] writes it.  The literal contains [Debug], which
    [debug|DEBUG] matches only when the case of the letters is ignored: with
    the pattern as written the DEBUG_PRINT condition holds at no statement
    of either text; with case ignored it holds at line 38 and nowhere
    else. *)
Theorem debug_literal_matches_only_without_case :
  In (38, 9) (calls_in test_cpp_issues output_primitive)
  /\ literals_on_line test_cpp_issues 38 = [of_string "Debug mode active"]
  /\ (forall (this : CppFixture.UnsafeClass) (w : world),
        w_stdout (final_world (CppFixture.debugFunction this w))
        = (w_stdout w ++ of_string "Debug mode active" ++ [LF])%list)
  /\ search false (Str "Debug") (of_string "Debug mode active") = true
  /\ debug_print_literal (of_string "Debug mode active") = false
  /\ search true debug_word (of_string "Debug mode active") = true
  /\ debug_print test_cpp_issues = []
  /\ debug_print unsafe_c_code = []
  /\ debug_print_nocase test_cpp_issues = [Finding DEBUG_PRINT 38 9 4].
Proof.
  split; [vm_compute; tauto|].
  split; [vm_compute; reflexivity|].
  split.
  { intros this w. transitivity (((w_stdout w ++ of_string "Debug mode active") ++ [LF])%list).
    - reflexivity.
    - now rewrite <- app_assoc. }
  split; [by_evaluation|]. split; [by_evaluation|]. split; [by_evaluation|].
  split; [by_evaluation|]. split; by_evaluation.
Qed.

(** C8, as stated, fails: the literal of line 38 does not contain
    [debug|DEBUG], and DEBUG_PRINT has no finding on line 38. *)
Lemma debug_print_does_not_fire :
  debug_print_literal (of_string "Debug mode active") = false
  /\ ~ (exists f, In f (debug_print test_cpp_issues) /\ f_line f = 38).
Proof.
  split; [vm_compute; reflexivity|].
  intros (f & Hin & _).
  assert (H : debug_print test_cpp_issues = []) by (vm_compute; reflexivity).
  rewrite H in Hin. exact Hin.
Qed.

(** C9.  In the C++ text the spans [TODO] (line 39, column 12), [hello] and
    [test] (line 36, columns 8 and 14) and [test] (line 47, column 8) lie in
    a line comment, byte for byte, and TODO_COMMENT fires at the first,
    TEST_LEFTOVER_COMMENT at the other three. *)
Theorem comment_markers_fire :
  (span test_cpp_issues 39 12 4 = of_string "TODO"
   /\ span_states test_cpp_issues 39 12 4 = replicate 4 line_comment
   /\ In (Finding TODO_COMMENT 39 12 4) (todo_comment test_cpp_issues))
  /\ (span test_cpp_issues 36 8 5 = of_string "hello"
      /\ span_states test_cpp_issues 36 8 5 = replicate 5 line_comment
      /\ In (Finding TEST_LEFTOVER_COMMENT 36 8 5) (test_leftover_comment test_cpp_issues))
  /\ (span test_cpp_issues 36 14 4 = of_string "test"
      /\ span_states test_cpp_issues 36 14 4 = replicate 4 line_comment
      /\ In (Finding TEST_LEFTOVER_COMMENT 36 14 4) (test_leftover_comment test_cpp_issues))
  /\ (span test_cpp_issues 47 8 4 = of_string "test"
      /\ span_states test_cpp_issues 47 8 4 = replicate 4 line_comment
      /\ In (Finding TEST_LEFTOVER_COMMENT 47 8 4) (test_leftover_comment test_cpp_issues))
  /\ search true todo_marker (of_string "TODO") = true
  /\ search false test_leftover (of_string "hello") = true
  /\ search false test_leftover (of_string "test") = true.
Proof.
  split; [split; [by_evaluation | split; by_evaluation]|].
  split; [split; [by_evaluation | split; by_evaluation]|].
  split; [split; [by_evaluation | split; by_evaluation]|].
  split; [split; [by_evaluation | split; by_evaluation]|].
  split; [by_evaluation|]. split; by_evaluation.
Qed.

End Texts.


(** * Further facts about the two programs *)

(** ** Strings with null bytes in them *)

Lemma cstring_until_nul (l : bytes) (rest : block) :
  cstring (map Some l ++ Some NUL :: rest) = inr (until_nul l).
Proof.
  induction l as [|c l IH]; simpl; [reflexivity|].
  destruct (Ascii.eqb c NUL); [reflexivity | now rewrite IH].
Qed.

Lemma until_nul_length (l : bytes) : (length (until_nul l) <= length l)%nat.
Proof.
  induction l as [|c l IH]; simpl; [lia|].
  destruct (Ascii.eqb c NUL); simpl; lia.
Qed.

Lemma overwrite_start (bs : bytes) (blk : block) :
  overwrite 0 bs blk = map Some bs ++ drop (length bs) blk.
Proof. exact (overwrite_after [] bs blk). Qed.

Lemma insert_pushed (m : list (option block)) (x y : option block) :
  <[length m := y]> (m ++ [x]) = m ++ [y].
Proof.
  rewrite insert_app_r_alt by lia. now rewrite Nat.sub_diag.
Qed.

(** ** [getUserInput] when the line fits, and at the end of the input *)

Lemma getUserInput_fits (w : world) (b : nat) (blk : block) :
  w_mem w !! b = Some (Some blk) ->
  w_stdin w <> [] ->
  (length (next_line w) < length blk)%nat ->
  CFixture.getUserInput (Ptr b) w =
  Done tt (World (after_line (w_stdin w))
                 (w_stdout w ++ lit "Enter your name: ")
                 (<[b := Some (map Some (next_line w) ++ Some NUL
                               :: drop (length (next_line w) + 1) blk)]> (w_mem w))
                 (w_avail w) (w_shell w)).
Proof.
  intros Hb Hne Hlen. unfold CFixture.getUserInput, next_line in *.
  erewrite bind_done by reflexivity.
  erewrite bind_done.
  2:{ apply (gets_fits _ b blk); [exact Hb | exact Hlen | exact Hne]. }
  unfold ret, set_mem, set_stdin, set_stdout. simpl.
  rewrite overwrite_start, map_app, <- app_assoc, length_app. reflexivity.
Qed.

(** X1.  When the standard input is not at its end and the next line is
    shorter than the array, [getUserInput] writes the prompt, consumes the
    line with its new-line, and leaves in the array the line followed by a
    null byte: read as a string, the array then holds the line up to its
    first null byte.  No other block changes. *)
Theorem getUserInput_stores_line (w : world) (b : nat) (blk : block) :
  w_mem w !! b = Some (Some blk) ->
  w_stdin w <> [] ->
  (length (next_line w) < length blk)%nat ->
  exists w',
    CFixture.getUserInput (Ptr b) w = Done tt w'
    /\ holds w' (Ptr b) (until_nul (next_line w))
    /\ (forall blk', block_at w' (Ptr b) = Some blk' ->
          length blk' = length blk
          /\ take (length (next_line w) + 1) blk' = map Some (next_line w ++ [NUL]))
    /\ w_stdin w' = after_line (w_stdin w)
    /\ w_stdout w' = w_stdout w ++ lit "Enter your name: "
    /\ (forall i, i <> b -> w_mem w' !! i = w_mem w !! i).
Proof.
  intros Hb Hne Hlen.
  pose proof (lookup_lt_Some _ _ _ Hb) as Hlt.
  eexists. split; [apply (getUserInput_fits w b blk Hb Hne Hlen)|].
  split.
  { eexists. split.
    - apply block_at_lookup. simpl. now apply list_lookup_insert_eq.
    - apply cstring_until_nul. }
  split.
  { intros blk' H. apply block_at_lookup in H. simpl in H.
    rewrite list_lookup_insert_eq in H by exact Hlt.
    inversion H; subst blk'; clear H. split.
    - rewrite length_app, length_map. cbn [length]. rewrite length_drop. lia.
    - rewrite map_app. simpl map.
      replace (map Some (next_line w) ++ Some NUL :: drop (length (next_line w) + 1) blk)
        with ((map Some (next_line w) ++ [Some NUL]) ++ drop (length (next_line w) + 1) blk)
        by (now rewrite <- app_assoc).
      apply take_app_length'.
      rewrite length_app, length_map. simpl. lia. }
  split; [reflexivity|]. split; [reflexivity|].
  intros i Hi. simpl. now apply list_lookup_insert_ne.
Qed.

Lemma getUserInput_stores_witness :
  exists w',
    CFixture.getUserInput (Ptr 0) (Samples.typing "bob\nrest") = Done tt w'
    /\ holds w' (Ptr 0) (lit "bob")
    /\ w_stdin w' = lit "rest".
Proof.
  destruct (getUserInput_stores_line (Samples.typing "bob\nrest") 0 (fresh_block 10))
    as (w' & Hrun & Hh & _ & Hin & _).
  - reflexivity.
  - discriminate.
  - vm_compute. lia.
  - exists w'. split; [exact Hrun | split; [exact Hh | exact Hin]].
Defined.

(** ** [buildGreeting] when it does not succeed *)

(** The world after lines 15 and 16, when the allocation succeeded: the new
    block holds ["Hello "]. *)
Lemma buildGreeting_copied (w : world) (p : ptr) :
  (50 <= w_avail w)%nat ->
  CFixture.buildGreeting p w =
  bind (strcat (Ptr (length (w_mem w))) (At p)) (fun _ => ret (Ptr (length (w_mem w))))
       (World (w_stdin w) (w_stdout w)
              (w_mem w ++ [Some (map Some (lit "Hello ") ++ Some NUL :: fresh_block 43)])
              (w_avail w - 50) (w_shell w)).
Proof.
  intros Hav. unfold CFixture.buildGreeting.
  rewrite (bind_done _ _ _ _ _ (malloc_succeeds w 50 Hav)).
  erewrite bind_done.
  2:{ unfold strcpy. erewrite bind_done by reflexivity.
      erewrite bind_done; [reflexivity|].
      apply (store_string _ (length (w_mem w)) [] (lit "Hello ") (fresh_block 50)).
      - apply lookup_pushed.
      - vm_compute. lia. }
  unfold set_mem. simpl w_mem. rewrite insert_pushed. reflexivity.
Qed.

Lemma block_at_old (w : world) (b : nat) (blk : block) (x : option block)
  (i o : bytes) (a : nat) (sh : list bytes) :
  block_at w (Ptr b) = Some blk ->
  block_at (World i o (w_mem w ++ [x]) a sh) (Ptr b) = Some blk.
Proof. rewrite !block_at_lookup. apply lookup_old. Qed.

Lemma load_cstr_fails (w : world) (p : ptr) (blk : block) (f : fault) :
  block_at w p = Some blk -> cstring blk = inl f -> load_cstr p w = Fault f w.
Proof.
  intros Hb Hc. unfold load_cstr.
  rewrite (bind_done _ _ _ _ _ (deref_block _ _ _ Hb)). now rewrite Hc.
Qed.

Lemma hello_block_holds (w : world) (i o : bytes) (a : nat) (sh : list bytes) :
  holds (World i o (w_mem w ++ [Some (map Some (lit "Hello ") ++ Some NUL :: fresh_block 43)])
               a sh)
        (Ptr (length (w_mem w))) (lit "Hello ").
Proof.
  eexists. split.
  - apply block_at_lookup. apply lookup_pushed.
  - reflexivity.
Qed.

(** X2.  A string of 44 bytes or more does not fit behind ["Hello "] in the
    50-byte block: when the allocation succeeds, [strcat] writes past the
    end of the block. *)
Theorem buildGreeting_overflows (w : world) (b : nat) (s : bytes) :
  holds w (Ptr b) s -> (44 <= length s)%nat -> (50 <= w_avail w)%nat ->
  exists w', CFixture.buildGreeting (Ptr b) w = Fault BufferOverflow w'
             /\ w_stdout w' = w_stdout w.
Proof.
  intros (blk & Hb & Hc) Hlen Hav. eexists. split.
  - rewrite (buildGreeting_copied w (Ptr b) Hav).
    apply bind_fault. unfold strcat.
    erewrite bind_done by (apply load_cstr_holds, hello_block_holds).
    erewrite bind_done.
    2:{ apply load_cstr_holds. exists blk. split; [now apply block_at_old | exact Hc]. }
    apply bind_fault.
    eapply store_overflows; [apply lookup_pushed|].
    change (length (map Some (lit "Hello ") ++ Some NUL :: fresh_block 43)) with 50%nat.
    change (length (lit "Hello ")) with 6%nat.
    rewrite length_app. cbn [length]. lia.
  - reflexivity.
Qed.

Lemma buildGreeting_overflows_witness :
  exists w',
    CFixture.buildGreeting (Ptr 0)
      (World [] [] [Some (map Some (lit "01234567890123456789012345678901234567890123")
                          ++ [Some NUL])] 64 [])
    = Fault BufferOverflow w'.
Proof.
  destruct (buildGreeting_overflows
              (World [] [] [Some (map Some (lit "01234567890123456789012345678901234567890123")
                                  ++ [Some NUL])] 64 [])
              0 (lit "01234567890123456789012345678901234567890123"))
    as (w' & Hrun & _).
  - eexists. split; reflexivity.
  - vm_compute. lia.
  - vm_compute. lia.
  - exists w'. exact Hrun.
Defined.

(** X3.  [buildGreeting] does not check what [malloc] returns: when the
    allocator cannot give 50 bytes, line 16 copies through the null pointer,
    whatever [name] is, and nothing else has happened by then. *)
Theorem buildGreeting_unchecked_allocation (w : world) (p : ptr) :
  (w_avail w < 50)%nat ->
  malloc 50 w = Done NULL w
  /\ CFixture.buildGreeting p w = Fault NullDereference w.
Proof.
  intros H. split; [now apply malloc_fails | now apply buildGreeting_null].
Qed.

Lemma buildGreeting_unchecked_witness :
  CFixture.buildGreeting (Ptr 0) (Samples.named "bob" "" 49)
  = Fault NullDereference (Samples.named "bob" "" 49).
Proof.
  apply (buildGreeting_unchecked_allocation (Samples.named "bob" "" 49) (Ptr 0)).
  vm_compute. lia.
Defined.

Lemma buildGreeting_unreadable (w : world) (b : nat) (blk : block) (f : fault) :
  block_at w (Ptr b) = Some blk -> cstring blk = inl f -> (50 <= w_avail w)%nat ->
  exists w', CFixture.buildGreeting (Ptr b) w = Fault f w' /\ w_stdout w' = w_stdout w.
Proof.
  intros Hb Hc Hav. eexists. split.
  - rewrite (buildGreeting_copied w (Ptr b) Hav).
    apply bind_fault. unfold strcat.
    erewrite bind_done by (apply load_cstr_holds, hello_block_holds).
    apply bind_fault. simpl read_chars.
    apply (load_cstr_fails _ _ blk); [now apply block_at_old | exact Hc].
  - reflexivity.
Qed.

Lemma declarations_world (w w1 : world) (l : CFixture.locals) :
  CFixture.declarations w = Done l w1 ->
  l = CFixture.Locals (Ptr (length (w_mem w))) None None None None
  /\ w1 = push_block (fresh_block 10) w.
Proof.
  intros H. unfold CFixture.declarations in H. bind_inv H.
  unfold local_array in Hstep. inversion Hstep; subst. split; reflexivity.
Qed.

(** X4.  At the end of the input [gets] returns without touching the
    array, and [getUserInput] does not look at what it returns: after the
    declarations of [main], line 40 then leaves [name] as it was declared,
    and line 41 reads it unwritten. *)
Theorem name_unwritten_at_end_of_input (w w1 : world) (l : CFixture.locals) :
  CFixture.declarations w = Done l w1 -> w_stdin w = [] ->
  (exists w2,
      CFixture.line40 l w1 = Done l w2
      /\ w_mem w2 = w_mem w1
      /\ block_at w2 (CFixture.name l) = Some (fresh_block 10)
      /\ w_stdout w2 = w_stdout w ++ lit "Enter your name: ")
  /\ ((50 <= w_avail w)%nat ->
      exists w', CFixture.run [CFixture.line40; CFixture.line41] l w1
                 = Fault UninitializedRead w').
Proof.
  intros H Hin. destruct (declarations_world _ _ _ H) as [-> ->].
  assert (H40 : CFixture.line40
                  (CFixture.Locals (Ptr (length (w_mem w))) None None None None)
                  (push_block (fresh_block 10) w)
                = Done (CFixture.Locals (Ptr (length (w_mem w))) None None None None)
                       (set_stdout (w_stdout w ++ lit "Enter your name: ")
                                   (push_block (fresh_block 10) w))).
  { unfold CFixture.line40, CFixture.getUserInput. simpl CFixture.name.
    erewrite bind_done; [reflexivity|].
    erewrite bind_done by reflexivity.
    erewrite bind_done; [reflexivity|].
    unfold gets. simpl w_stdin. rewrite Hin. reflexivity. }
  split.
  - eexists. split; [exact H40|]. split; [reflexivity|]. split; [|reflexivity].
    apply block_at_lookup. apply lookup_pushed.
  - intros Hav. simpl CFixture.run.
    rewrite (bind_done _ _ _ _ _ H40).
    destruct (buildGreeting_unreadable
                (set_stdout (w_stdout w ++ lit "Enter your name: ")
                            (push_block (fresh_block 10) w))
                (length (w_mem w)) (fresh_block 10) UninitializedRead)
      as (w' & Hrun & _).
    + apply block_at_lookup. apply lookup_pushed.
    + reflexivity.
    + exact Hav.
    + exists w'. apply bind_fault. unfold CFixture.line41. simpl CFixture.name.
      apply bind_fault. exact Hrun.
Qed.

Lemma name_unwritten_witness :
  exists w', CFixture.run [CFixture.line40; CFixture.line41]
               (CFixture.Locals (Ptr 0) None None None None)
               (push_block (fresh_block 10) (initial_world [] 64))
             = Fault UninitializedRead w'.
Proof.
  refine (proj2 (name_unwritten_at_end_of_input (initial_world [] 64) _ _ _ _) _).
  - reflexivity.
  - reflexivity.
  - vm_compute. lia.
Defined.

(** ** The query functions: what they leave behind, and when they overflow *)

Lemma queryDatabase_runs (w : world) (p : ptr) (s : bytes) :
  holds w p s -> (length s <= 163)%nat ->
  CFixture.queryDatabase p w =
  Done tt (World (w_stdin w)
                 (w_stdout w ++ lit "Executing query: "
                             ++ (select_prefix ++ s ++ lit "';") ++ [LF])
                 (w_mem w ++ [None]) (w_avail w) (w_shell w)).
Proof.
  intros Hs Hlen.
  pose proof (holds_no_nul _ _ _ Hs) as Hnn.
  set (q := select_prefix ++ s ++ lit "';").
  set (n := length (w_mem w)).
  set (w1 := push_block (fresh_block 200) w).
  assert (Hq : no_nul q).
  { apply no_nul_app; [apply no_nul_select_prefix|].
    apply no_nul_app; [exact Hnn|]. vm_compute. repeat constructor; discriminate. }
  assert (Hlq : (length q + 1 <= 200)%nat).
  { unfold q. rewrite !length_app. change (length select_prefix) with 34%nat.
    change (length (lit "';")) with 2%nat. lia. }
  assert (Hf : format CFixture.query_format [AStr (At p)] w1 = Done q w1).
  { apply (format_string w1 _ (At p) s); [now apply holds_push | apply expand_c_query]. }
  pose proof (sprintf_fits w1 n (fresh_block 200) _ _ q (lookup_pushed _ _) Hf Hlq) as Hsp.
  simpl w_mem in Hsp. unfold n in Hsp. rewrite insert_pushed in Hsp. fold n in Hsp.
  set (w2 := set_mem (w_mem w ++ [Some (map Some q ++ Some NUL
                                        :: drop (length q + 1) (fresh_block 200))]) w1) in *.
  assert (Hh : holds w2 (Ptr n) q).
  { eexists. split; [apply block_at_lookup, lookup_pushed | now apply cstring_holds]. }
  unfold CFixture.queryDatabase.
  erewrite bind_done by reflexivity. fold n w1.
  rewrite (bind_done _ _ _ _ _ Hsp).
  erewrite bind_done.
  2:{ unfold printf. erewrite bind_done.
      2:{ apply (format_string w2 _ (At (Ptr n)) q); [exact Hh | apply expand_executing]. }
      reflexivity. }
  unfold end_of_life, set_stdout, set_mem. simpl.
  unfold n. rewrite insert_pushed. reflexivity.
Qed.

(** X5.  [queryDatabase] gives back the store as it found it: when it
    returns, every block that existed is unchanged and still at its place,
    the [query] array is gone, and neither the input nor the heap budget was
    touched; what remains of the call is the line on the standard output. *)
Theorem queryDatabase_leaves_the_store (w : world) (p : ptr) (s : bytes) :
  holds w p s -> (length s <= 163)%nat ->
  exists w',
    CFixture.queryDatabase p w = Done tt w'
    /\ w_mem w' = w_mem w ++ [None]
    /\ (forall i x, w_mem w !! i = Some x -> w_mem w' !! i = Some x)
    /\ block_at w' (Ptr (length (w_mem w))) = None
    /\ holds w' p s
    /\ w_stdin w' = w_stdin w /\ w_avail w' = w_avail w /\ w_shell w' = w_shell w.
Proof.
  intros Hs Hlen. eexists. split; [apply (queryDatabase_runs w p s Hs Hlen)|].
  split; [reflexivity|]. split; [intros i x; apply lookup_old|].
  split.
  { simpl. now rewrite lookup_pushed. }
  split; [|repeat split].
  destruct Hs as (blk & Hb & Hc). exists blk. split; [|exact Hc].
  destruct p as [|b]; [discriminate|]. now apply block_at_old.
Qed.

Lemma queryDatabase_leaves_witness :
  exists w',
    CFixture.queryDatabase (Ptr 0) (Samples.named "bob" "" 0) = Done tt w'
    /\ w_mem w' = w_mem (Samples.named "bob" "" 0) ++ [None].
Proof.
  destruct (queryDatabase_leaves_the_store (Samples.named "bob" "" 0) (Ptr 0) (lit "bob"))
    as (w' & Hrun & Hmem & _).
  - eexists. split; reflexivity.
  - vm_compute. lia.
  - exists w'. split; [exact Hrun | exact Hmem].
Defined.

(** X6.  The bound of the query arrays is sharp: a string of 164 bytes or
    more makes the [sprintf] of [queryDatabase] write past the end of
    [query], and a string of 165 bytes or more that of [processData];
    nothing has been printed by then. *)
Theorem query_arrays_overflow (w : world) (p : ptr) (data : chars) (s : bytes) :
  holds w p s -> chars_value w data s ->
  ((164 <= length s)%nat ->
   exists w', CFixture.queryDatabase p w = Fault BufferOverflow w'
              /\ w_stdout w' = w_stdout w)
  /\ ((165 <= length s)%nat ->
      forall this : CppFixture.UnsafeClass,
      exists w', CppFixture.processData this data w = Fault BufferOverflow w'
                 /\ w_stdout w' = w_stdout w).
Proof.
  intros Hp Hd.
  set (w1 := push_block (fresh_block 200) w).
  split.
  - intros Hlen. eexists. split.
    + unfold CFixture.queryDatabase.
      erewrite bind_done by reflexivity. fold w1.
      apply bind_fault.
      apply (sprintf_overflows w1 _ (fresh_block 200) _ _ (select_prefix ++ s ++ lit "';")).
      * apply lookup_pushed.
      * apply (format_string w1 _ (At p) s); [now apply holds_push | apply expand_c_query].
      * rewrite !length_app. change (length select_prefix) with 34%nat.
        change (length (lit "';")) with 2%nat.
        change (length (fresh_block 200)) with 200%nat. lia.
    + reflexivity.
  - intros Hlen this. eexists. split.
    + unfold CppFixture.processData.
      erewrite bind_done by reflexivity. fold w1.
      apply bind_fault.
      apply (sprintf_overflows w1 _ (fresh_block 200) _ _ (select_prefix ++ s ++ lit "'")).
      * apply lookup_pushed.
      * apply (format_string w1 _ data s);
          [now apply chars_value_push | apply expand_cpp_query].
      * rewrite !length_app. change (length select_prefix) with 34%nat.
        change (length (lit "'")) with 1%nat.
        change (length (fresh_block 200)) with 200%nat. lia.
    + reflexivity.
Qed.

Lemma query_arrays_overflow_witness :
  exists w',
    CFixture.queryDatabase (Ptr 0)
      (World [] [] [Some (map Some (replicate 165 "a"%char) ++ [Some NUL])] 0 [])
    = Fault BufferOverflow w'.
Proof.
  assert (H : holds (World [] [] [Some (map Some (replicate 165 "a"%char) ++ [Some NUL])] 0 [])
                    (Ptr 0) (replicate 165 "a"%char)).
  { eexists. split; reflexivity. }
  destruct (proj1 (query_arrays_overflow _ (Ptr 0) (At (Ptr 0)) _ H H)) as (w' & Hrun & _).
  - vm_compute. lia.
  - exists w'. exact Hrun.
Defined.

(** ** Lines 40 to 44 of the C [main] *)

Lemma printf_string (w : world) (g : ptr) (s : bytes) :
  holds w g s ->
  printf "%s\n" [AStr (At g)] w = Done tt (set_stdout (w_stdout w ++ s ++ [LF]) w).
Proof.
  intros H. unfold printf.
  erewrite bind_done by (apply (format_string w _ (At g) s); [exact H | reflexivity]).
  reflexivity.
Qed.

(** X7.  After the declarations of [main], with a line of at most 9 bytes
    on the standard input and 50 bytes of heap, lines 40 to 44 run to their
    end: the name read is greeted and queried for, as it was typed up to its
    first null byte.  The block [buildGreeting] allocated is still allocated
    and still holds the greeting when line 44 is done: no statement releases
    it. *)
Theorem main_greets_and_queries (w w1 : world) (l : CFixture.locals) :
  CFixture.declarations w = Done l w1 ->
  w_stdin w <> [] -> (length (next_line w) <= 9)%nat -> (50 <= w_avail w)%nat ->
  let s := until_nul (next_line w) in
  exists l' g w',
    CFixture.run [CFixture.line40; CFixture.line41; CFixture.line42; CFixture.line44] l w1
    = Done l' w'
    /\ w_stdout w'
       = w_stdout w ++ lit "Enter your name: " ++ (lit "Hello " ++ s ++ [LF])
                    ++ lit "Executing query: " ++ (select_prefix ++ s ++ lit "';") ++ [LF]
    /\ w_stdin w' = after_line (w_stdin w)
    /\ CFixture.greeting l' = Some g
    /\ holds w' g (lit "Hello " ++ s)
    /\ holds w' (CFixture.name l') s
    /\ CFixture.result l' = None.
Proof.
  intros H Hne Hlen Hav s. destruct (declarations_world _ _ _ H) as [-> ->].
  set (n := length (w_mem w)).
  set (l0 := CFixture.Locals (Ptr n) None None None None).
  set (w1 := push_block (fresh_block 10) w).
  assert (Hs : (length s <= 9)%nat).
  { unfold s. pose proof (until_nul_length (next_line w)). lia. }
  (* line 40 *)
  assert (Hfit : (length (next_line w1) < length (fresh_block 10))%nat).
  { change (length (fresh_block 10)) with 10%nat. change (next_line w1) with (next_line w). lia. }
  pose proof (getUserInput_fits w1 n (fresh_block 10) (lookup_pushed _ _) Hne Hfit) as H40.
  set (w2 := World (after_line (w_stdin w1)) (w_stdout w1 ++ lit "Enter your name: ")
                   (<[n := Some (map Some (next_line w1) ++ Some NUL
                                 :: drop (length (next_line w1) + 1) (fresh_block 10))]>
                      (w_mem w1))
                   (w_avail w1) (w_shell w1)) in *.
  assert (Hname2 : holds w2 (Ptr n) s).
  { eexists. split.
    - apply block_at_lookup. cbn [w_mem w2]. apply list_lookup_insert_eq.
      unfold w1, push_block, set_mem. cbn [w_mem]. rewrite length_app. simpl. lia.
    - apply cstring_until_nul. }
  assert (Hin2 : w_stdin w2 = after_line (w_stdin w1)) by reflexivity.
  assert (Hout2 : w_stdout w2 = w_stdout w1 ++ lit "Enter your name: ") by reflexivity.
  (* line 41 *)
  assert (Hav2 : (50 <= w_avail w2)%nat) by exact Hav.
  destruct (buildGreeting_greets w2 n s Hname2 ltac:(lia) Hav2)
    as (w3 & H41 & Hg3 & _ & Hold3 & Hin3 & Hout3).
  set (g := Ptr (length (w_mem w2))) in *.
  assert (Hname3 : holds w3 (Ptr n) s).
  { destruct Hname2 as (blk & Hb & Hc). exists blk. split; [|exact Hc].
    apply block_at_lookup in Hb. apply block_at_lookup.
    rewrite Hold3; [exact Hb | now apply lookup_lt_Some in Hb]. }
  (* line 42 *)
  pose proof (printf_string w3 g _ Hg3) as H42.
  set (w4 := set_stdout (w_stdout w3 ++ (lit "Hello " ++ s) ++ [LF]) w3) in *.
  (* line 44 *)
  assert (Hname4 : holds w4 (Ptr n) s) by exact Hname3.
  assert (Hs163 : (length s <= 163)%nat) by lia.
  pose proof (queryDatabase_runs w4 (Ptr n) s Hname4 Hs163) as H44.
  exists (CFixture.Locals (Ptr n) None None None (Some g)), g. eexists.
  split.
  { simpl CFixture.run.
    erewrite bind_done.
    2:{ unfold CFixture.line40. simpl CFixture.name.
        rewrite (bind_done _ _ _ _ _ H40). reflexivity. }
    erewrite bind_done.
    2:{ unfold CFixture.line41. simpl CFixture.name.
        rewrite (bind_done _ _ _ _ _ H41). reflexivity. }
    erewrite bind_done.
    2:{ unfold CFixture.line42. simpl CFixture.greeting.
        erewrite bind_done by reflexivity.
        rewrite (bind_done _ _ _ _ _ H42). reflexivity. }
    erewrite bind_done.
    2:{ unfold CFixture.line44. simpl CFixture.name.
        rewrite (bind_done _ _ _ _ _ H44). reflexivity. }
    reflexivity. }
  split.
  { unfold w4, set_stdout. cbn [w_stdout]. rewrite Hout3, Hout2.
    unfold w1, push_block, set_mem. cbn [w_stdout].
    rewrite <- !app_assoc. reflexivity. }
  split.
  { unfold w4, set_stdout. cbn [w_stdin]. now rewrite Hin3, Hin2. }
  split; [reflexivity|].
  split.
  { destruct Hg3 as (blk & Hb & Hc). exists blk. split; [|exact Hc].
    now apply block_at_old. }
  split; [|reflexivity].
  destruct Hname4 as (blk & Hb & Hc). exists blk. split; [|exact Hc].
  now apply block_at_old.
Qed.

Lemma main_greets_witness :
  exists l' w',
    CFixture.run [CFixture.line40; CFixture.line41; CFixture.line42; CFixture.line44]
                 (CFixture.Locals (Ptr 0) None None None None)
                 (push_block (fresh_block 10) (initial_world (lit "bob\n4 2\n") 64))
    = Done l' w'
    /\ w_stdout w'
       = lit "Enter your name: Hello bob\nExecuting query: SELECT * FROM users WHERE name = 'bob';\n".
Proof.
  edestruct (main_greets_and_queries (initial_world (lit "bob\n4 2\n") 64))
    as (l' & g & w' & Hrun & Hout & _).
  - reflexivity.
  - discriminate.
  - vm_compute. lia.
  - vm_compute. lia.
  - exists l', w'. split; [exact Hrun | exact Hout].
Defined.

(** ** Lines 47 and 48 of the C [main] *)

Lemma printf_division (q : Z) (w : world) :
  printf "Division result: %d\n" [AInt q] w
  = Done tt (set_stdout (w_stdout w ++ lit "Division result: " ++ decimal q ++ [LF]) w).
Proof. reflexivity. Qed.

Lemma line47_assigns (l : CFixture.locals) (w w' : world) (vs : list Z) :
  scanf_d_d w = Done vs w' ->
  CFixture.line47 l w =
  Done match vs with
       | [] => l
       | [a] => CFixture.Locals (CFixture.name l) (Some a) (CFixture.y l)
                                (CFixture.result l) (CFixture.greeting l)
       | a :: b :: _ => CFixture.Locals (CFixture.name l) (Some a) (Some b)
                                        (CFixture.result l) (CFixture.greeting l)
       end w'.
Proof. intros H. unfold CFixture.line47. rewrite (bind_done _ _ _ _ _ H). reflexivity. Qed.

(** X8.  [main] does not look at what [scanf] returns.  When fewer than two
    numbers could be converted, [x] or [y] is left as it was declared, and
    line 48 passes it to [divide] without a value. *)
Theorem scanf_result_unchecked (l : CFixture.locals) (w w' : world) (vs : list Z) :
  scanf_d_d w = Done vs w' -> (length vs < 2)%nat ->
  CFixture.x l = None -> CFixture.y l = None ->
  CFixture.run [CFixture.line47; CFixture.line48] l w = Fault UninitializedRead w'.
Proof.
  intros H Hn Hx Hy. simpl CFixture.run.
  rewrite (bind_done _ _ _ _ _ (line47_assigns l w w' vs H)).
  apply bind_fault. unfold CFixture.line48.
  destruct vs as [|a [|b r]]; simpl in Hn; try lia; simpl.
  - rewrite Hx. reflexivity.
  - rewrite Hy. reflexivity.
Qed.

Lemma scanf_result_unchecked_witness :
  exists w',
    CFixture.run [CFixture.line47; CFixture.line48]
                 (CFixture.Locals (Ptr 0) None None None None)
                 (initial_world (lit "12 twelve\n") 0)
    = Fault UninitializedRead w'.
Proof.
  eexists.
  eapply (scanf_result_unchecked _ (initial_world (lit "12 twelve\n") 0)).
  - vm_compute. reflexivity.
  - vm_compute. lia.
  - reflexivity.
  - reflexivity.
Defined.

(** X9.  When [scanf] converted two numbers [a] and [b], line 48 divides
    them unchecked: a zero [b] is a division by zero, [INT_MIN] by [-1]
    overflows, and every other pair prints the quotient truncated towards
    zero in decimal. *)
Theorem main_divides_what_was_typed (l : CFixture.locals) (w w' : world)
  (a b : Z) (rest : list Z) :
  scanf_d_d w = Done (a :: b :: rest) w' ->
  (b = 0 ->
   CFixture.run [CFixture.line47; CFixture.line48] l w = Fault DivisionByZero w')
  /\ (a = INT_MIN -> b = -1 ->
      CFixture.run [CFixture.line47; CFixture.line48] l w = Fault SignedOverflow w')
  /\ (b <> 0 -> ~ (a = INT_MIN /\ b = -1) ->
      exists l',
        CFixture.run [CFixture.line47; CFixture.line48] l w
        = Done l' (set_stdout (w_stdout w' ++ lit "Division result: "
                                         ++ decimal (Z.quot a b) ++ [LF]) w')
        /\ CFixture.x l' = Some a /\ CFixture.y l' = Some b).
Proof.
  intros H.
  pose proof (line47_assigns l w w' _ H) as H47. simpl in H47.
  split; [|split].
  - intros ->. simpl CFixture.run. rewrite (bind_done _ _ _ _ _ H47).
    apply bind_fault. reflexivity.
  - intros -> ->. simpl CFixture.run. rewrite (bind_done _ _ _ _ _ H47).
    apply bind_fault. reflexivity.
  - intros Hb Hov. eexists. split.
    + simpl CFixture.run. rewrite (bind_done _ _ _ _ _ H47).
      erewrite bind_done; [reflexivity|].
      unfold CFixture.line48. simpl CFixture.x. simpl CFixture.y.
      erewrite bind_done by reflexivity.
      erewrite bind_done by reflexivity.
      unfold CFixture.divide.
      rewrite (bind_done _ _ _ _ _ (int_div_defined a b w' Hb Hov)).
      rewrite (bind_done _ _ _ _ _ (printf_division _ _)). reflexivity.
    + split; reflexivity.
Qed.

Lemma main_divides_witness :
  CFixture.run [CFixture.line47; CFixture.line48]
               (CFixture.Locals (Ptr 0) None None None None)
               (initial_world (lit "7 0\n") 0)
  = Fault DivisionByZero (initial_world (lit "\n") 0)
  /\ exists l',
       CFixture.run [CFixture.line47; CFixture.line48]
                    (CFixture.Locals (Ptr 0) None None None None)
                    (initial_world (lit "-7 2\n") 0)
       = Done l' (World (lit "\n") (lit "Division result: -3\n") [] 0 []).
Proof.
  split.
  - apply (proj1 (main_divides_what_was_typed
                    (CFixture.Locals (Ptr 0) None None None None)
                    (initial_world (lit "7 0\n") 0) (initial_world (lit "\n") 0)
                    7 0 [] eq_refl)).
    reflexivity.
  - destruct (proj2 (proj2 (main_divides_what_was_typed
                              (CFixture.Locals (Ptr 0) None None None None)
                              (initial_world (lit "-7 2\n") 0) (initial_world (lit "\n") 0)
                              (-7) 2 [] eq_refl)))
      as (l' & Hrun & _).
    + lia.
    + lia.
    + exists l'. exact Hrun.
Defined.

(** ** [unsafeInput] *)

(** The world in which [unsafeInput] reaches its [strcpy], when a line
    shorter than the array was read. *)
Lemma unsafeInput_read (w : world) (this : CppFixture.UnsafeClass) :
  w_stdin w <> [] -> (length (next_line w) < 50)%nat ->
  CppFixture.unsafeInput this w =
  bind (strcpy (CppFixture.buffer this) (At (Ptr (length (w_mem w)))))
       (fun _ => end_of_life (Ptr (length (w_mem w))))
       (World (after_line (w_stdin w)) (w_stdout w ++ lit "Enter data: ")
              (w_mem w ++ [Some (map Some (next_line w) ++ Some NUL
                                 :: drop (length (next_line w) + 1) (fresh_block 50))])
              (w_avail w) (w_shell w)).
Proof.
  intros Hne Hlen. unfold CppFixture.unsafeInput, next_line in *.
  erewrite bind_done by reflexivity.
  erewrite bind_done by reflexivity.
  erewrite bind_done.
  2:{ apply (gets_fits _ (length (w_mem w)) (fresh_block 50)).
      - apply lookup_pushed.
      - exact Hlen.
      - exact Hne. }
  unfold set_mem, set_stdin, set_stdout, push_block. simpl.
  rewrite insert_pushed, overwrite_start, map_app, <- app_assoc, length_app.
  reflexivity.
Qed.

Lemma line_block_holds (w : world) (line : bytes) (rest : block)
  (i o : bytes) (a : nat) (sh : list bytes) :
  holds (World i o (w_mem w ++ [Some (map Some line ++ Some NUL :: rest)]) a sh)
        (Ptr (length (w_mem w))) (until_nul line).
Proof.
  eexists. split.
  - apply block_at_lookup. apply lookup_pushed.
  - apply cstring_until_nul.
Qed.

Lemma kill_pushed_after_update (m : list (option block)) (b : nat) (x L : option block) :
  (b < length m)%nat ->
  <[length m := None]> (<[b := x]> (m ++ [L])) = <[b := x]> m ++ [None].
Proof.
  intros H. rewrite insert_app_l by exact H.
  rewrite <- (length_insert m b x) at 1. apply insert_pushed.
Qed.

Lemma unsafeInput_runs (w : world) (this : CppFixture.UnsafeClass)
  (b : nat) (blk : block) :
  CppFixture.buffer this = Ptr b -> w_mem w !! b = Some (Some blk) ->
  w_stdin w <> [] -> (length (next_line w) < 50)%nat ->
  (length (until_nul (next_line w)) < length blk)%nat ->
  CppFixture.unsafeInput this w =
  Done tt (World (after_line (w_stdin w)) (w_stdout w ++ lit "Enter data: ")
                 (<[b := Some (map Some (until_nul (next_line w)) ++ Some NUL
                               :: drop (length (until_nul (next_line w)) + 1) blk)]>
                    (w_mem w) ++ [None])
                 (w_avail w) (w_shell w)).
Proof.
  intros Hbuf Hb Hne Hlen Hfit.
  pose proof (lookup_lt_Some _ _ _ Hb) as Hlt.
  set (s := until_nul (next_line w)) in *.
  rewrite (unsafeInput_read w this Hne Hlen), Hbuf.
  erewrite bind_done.
  2:{ unfold strcpy.
      erewrite bind_done by (apply load_cstr_holds, line_block_holds).
      erewrite bind_done; [reflexivity|].
      apply (store_string _ b [] s blk).
      - apply lookup_old. exact Hb.
      - fold s. lia. }
  unfold end_of_life, set_mem. cbn [w_mem w_stdout w_stdin w_avail w_shell].
  rewrite kill_pushed_after_update by exact Hlt. reflexivity.
Qed.

(** X10.  When a line shorter than 50 bytes is read and [buffer] points to
    a block with room for it, [unsafeInput] writes the prompt, consumes the
    line, and leaves in [buffer] the line up to its first null byte; its
    own array is gone when it returns, and no other block has changed. *)
Theorem unsafeInput_copies_line (w : world) (this : CppFixture.UnsafeClass)
  (b : nat) (blk : block) :
  CppFixture.buffer this = Ptr b -> w_mem w !! b = Some (Some blk) ->
  w_stdin w <> [] -> (length (next_line w) < 50)%nat ->
  (length (until_nul (next_line w)) < length blk)%nat ->
  exists w',
    CppFixture.unsafeInput this w = Done tt w'
    /\ holds w' (Ptr b) (until_nul (next_line w))
    /\ w_stdout w' = w_stdout w ++ lit "Enter data: "
    /\ w_stdin w' = after_line (w_stdin w)
    /\ length (w_mem w') = S (length (w_mem w))
    /\ w_mem w' !! length (w_mem w) = Some None
    /\ (forall i, i <> b -> (i < length (w_mem w))%nat -> w_mem w' !! i = w_mem w !! i)
    /\ w_avail w' = w_avail w /\ w_shell w' = w_shell w.
Proof.
  intros Hbuf Hb Hne Hlen Hfit.
  pose proof (lookup_lt_Some _ _ _ Hb) as Hlt.
  eexists. split; [apply (unsafeInput_runs w this b blk Hbuf Hb Hne Hlen Hfit)|].
  cbn [w_mem w_stdout w_stdin w_avail w_shell].
  split.
  { eexists. split.
    - apply block_at_lookup. cbn [w_mem]. rewrite lookup_app_l by (now rewrite length_insert).
      now apply list_lookup_insert_eq.
    - apply cstring_holds. apply until_nul_no_nul. }
  split; [reflexivity|]. split; [reflexivity|].
  split; [rewrite length_app, length_insert; simpl; lia|].
  split.
  { rewrite lookup_app_r by (rewrite length_insert; lia).
    rewrite length_insert. now rewrite Nat.sub_diag. }
  split; [|split; reflexivity].
  intros i Hi Hil. rewrite lookup_app_l by (now rewrite length_insert).
  now apply list_lookup_insert_ne.
Qed.

Lemma unsafeInput_copies_witness :
  exists w',
    CppFixture.unsafeInput {| CppFixture.buffer := Ptr 0 |}
      (World (lit "bob\n") [] [Some (fresh_block 100)] 0 []) = Done tt w'
    /\ holds w' (Ptr 0) (lit "bob").
Proof.
  destruct (unsafeInput_copies_line
              (World (lit "bob\n") [] [Some (fresh_block 100)] 0 [])
              {| CppFixture.buffer := Ptr 0 |} 0 (fresh_block 100))
    as (w' & Hrun & Hh & _).
  - reflexivity.
  - reflexivity.
  - discriminate.
  - vm_compute. lia.
  - vm_compute. lia.
  - exists w'. split; [exact Hrun | exact Hh].
Defined.

Lemma unsafeInput_eof (w : world) (this : CppFixture.UnsafeClass) :
  w_stdin w = [] ->
  CppFixture.unsafeInput this w =
  Fault UninitializedRead
        (World [] (w_stdout w ++ lit "Enter data: ") (w_mem w ++ [Some (fresh_block 50)])
               (w_avail w) (w_shell w)).
Proof.
  intros Hin. unfold CppFixture.unsafeInput.
  erewrite bind_done by reflexivity.
  erewrite bind_done by reflexivity.
  erewrite bind_done.
  2:{ unfold gets. simpl w_stdin. rewrite Hin. reflexivity. }
  apply bind_fault. unfold strcpy. apply bind_fault. simpl read_chars.
  unfold set_stdout, push_block, set_mem. simpl. rewrite Hin.
  apply (load_cstr_fails _ _ (fresh_block 50)); [|reflexivity].
  apply block_at_lookup. apply lookup_pushed.
Qed.

(** X11.  At the end of the input [gets] writes nothing into [input], and
    [unsafeInput] does not look at what [gets] returns: the [strcpy] of
    line 23 reads the array unwritten, whatever [buffer] is; only the prompt
    has been written. *)
Theorem unsafeInput_at_end_of_input (w : world) (this : CppFixture.UnsafeClass) :
  w_stdin w = [] ->
  exists w',
    CppFixture.unsafeInput this w = Fault UninitializedRead w'
    /\ w_stdout w' = w_stdout w ++ lit "Enter data: "
    /\ (forall i x, w_mem w !! i = Some x -> w_mem w' !! i = Some x).
Proof.
  intros Hin. eexists. split; [apply (unsafeInput_eof w this Hin)|].
  split; [reflexivity|]. intros i x. apply lookup_old.
Qed.

Lemma unsafeInput_eof_witness :
  exists w',
    CppFixture.unsafeInput {| CppFixture.buffer := Ptr 0 |}
      (World [] [] [Some (fresh_block 100)] 0 []) = Fault UninitializedRead w'.
Proof.
  destruct (unsafeInput_at_end_of_input
              (World [] [] [Some (fresh_block 100)] 0 []) {| CppFixture.buffer := Ptr 0 |})
    as (w' & Hrun & _).
  - reflexivity.
  - exists w'. exact Hrun.
Defined.

Lemma unsafeInput_null (w : world) (this : CppFixture.UnsafeClass) :
  CppFixture.buffer this = NULL ->
  w_stdin w <> [] -> (length (next_line w) < 50)%nat ->
  CppFixture.unsafeInput this w =
  Fault NullDereference
        (World (after_line (w_stdin w)) (w_stdout w ++ lit "Enter data: ")
               (w_mem w ++ [Some (map Some (next_line w) ++ Some NUL
                                  :: drop (length (next_line w) + 1) (fresh_block 50))])
               (w_avail w) (w_shell w)).
Proof.
  intros Hbuf Hne Hlen.
  rewrite (unsafeInput_read w this Hne Hlen), Hbuf.
  apply bind_fault. unfold strcpy.
  erewrite bind_done by (apply load_cstr_holds, line_block_holds).
  apply bind_fault. reflexivity.
Qed.

(** X12.  The constructor does not check what [malloc] returns: when the
    allocator cannot give 100 bytes it stores a null pointer in [buffer] and
    returns as if nothing had happened.  [unsafeInput] then reads its line
    and copies it through the null pointer. *)
Theorem constructor_unchecked_allocation (w : world) :
  (w_avail w < 100)%nat ->
  CppFixture.UnsafeClass_ctor w = Done {| CppFixture.buffer := NULL |} w
  /\ (w_stdin w <> [] -> (length (next_line w) < 50)%nat ->
      exists w',
        CppFixture.run [CppFixture.line45; CppFixture.line48]
                       (CppFixture.Env CppFixture.api_secret_init None None) w
        = Fault NullDereference w'
        /\ w_stdin w' = after_line (w_stdin w)
        /\ w_stdout w' = w_stdout w ++ lit "Enter data: ").
Proof.
  intros Hav.
  assert (Hc : CppFixture.UnsafeClass_ctor w = Done {| CppFixture.buffer := NULL |} w).
  { unfold CppFixture.UnsafeClass_ctor.
    rewrite (bind_done _ _ _ _ _ (malloc_fails w 100 Hav)). reflexivity. }
  split; [exact Hc|].
  intros Hne Hlen. eexists. split.
  - simpl CppFixture.run.
    erewrite bind_done.
    2:{ unfold CppFixture.line45. rewrite (bind_done _ _ _ _ _ Hc). reflexivity. }
    apply bind_fault. unfold CppFixture.line48. simpl CppFixture.obj.
    erewrite bind_done by reflexivity.
    apply bind_fault.
    apply (unsafeInput_null w {| CppFixture.buffer := NULL |} eq_refl Hne Hlen).
  - split; reflexivity.
Qed.

Lemma constructor_unchecked_witness :
  CppFixture.UnsafeClass_ctor (initial_world (lit "bob\n") 99)
  = Done {| CppFixture.buffer := NULL |} (initial_world (lit "bob\n") 99).
Proof.
  apply (constructor_unchecked_allocation (initial_world (lit "bob\n") 99)).
  vm_compute. lia.
Defined.

(** ** The C++ program as a whole *)

Lemma processData_runs (w : world) (this : CppFixture.UnsafeClass) (data : chars) (s : bytes) :
  chars_value w data s -> (length s <= 164)%nat ->
  CppFixture.processData this data w =
  Done tt (World (w_stdin w) (w_stdout w ++ (select_prefix ++ s ++ lit "'") ++ [LF])
                 (w_mem w ++ [None]) (w_avail w) (w_shell w)).
Proof.
  intros Hs Hlen.
  pose proof (chars_value_no_nul _ _ _ Hs) as Hnn.
  set (q := select_prefix ++ s ++ lit "'").
  set (n := length (w_mem w)).
  set (w1 := push_block (fresh_block 200) w).
  assert (Hq : no_nul q).
  { apply no_nul_app; [apply no_nul_select_prefix|].
    apply no_nul_app; [exact Hnn|]. vm_compute. repeat constructor; discriminate. }
  assert (Hlq : (length q + 1 <= 200)%nat).
  { unfold q. rewrite !length_app. change (length select_prefix) with 34%nat.
    change (length (lit "'")) with 1%nat. lia. }
  assert (Hf : format CppFixture.query_format [AStr data] w1 = Done q w1).
  { apply (format_string w1 _ data s); [now apply chars_value_push | apply expand_cpp_query]. }
  pose proof (sprintf_fits w1 n (fresh_block 200) _ _ q (lookup_pushed _ _) Hf Hlq) as Hsp.
  simpl w_mem in Hsp. unfold n in Hsp. rewrite insert_pushed in Hsp. fold n in Hsp.
  set (w2 := set_mem (w_mem w ++ [Some (map Some q ++ Some NUL
                                        :: drop (length q + 1) (fresh_block 200))]) w1) in *.
  assert (Hh : holds w2 (Ptr n) q).
  { eexists. split; [apply block_at_lookup, lookup_pushed | now apply cstring_holds]. }
  unfold CppFixture.processData.
  erewrite bind_done by reflexivity. fold n w1.
  rewrite (bind_done _ _ _ _ _ Hsp).
  erewrite bind_done.
  2:{ unfold cout_chars. erewrite bind_done by (apply load_cstr_holds; exact Hh).
      reflexivity. }
  erewrite bind_done by reflexivity.
  unfold end_of_life, put, set_stdout, set_mem, w2, w1, push_block, set_mem.
  cbn [w_mem w_stdout w_stdin w_avail w_shell].
  unfold n. rewrite insert_pushed. unfold q. rewrite <- !app_assoc. reflexivity.
Qed.



Lemma constructor_allocates (w : world) :
  (100 <= w_avail w)%nat ->
  CppFixture.UnsafeClass_ctor w =
  Done {| CppFixture.buffer := Ptr (length (w_mem w)) |}
       (World (w_stdin w) (w_stdout w) (w_mem w ++ [Some (fresh_block 100)])
              (w_avail w - 100) (w_shell w)).
Proof.
  intros Hav. unfold CppFixture.UnsafeClass_ctor.
  rewrite (bind_done _ _ _ _ _ (malloc_succeeds w 100 Hav)). reflexivity.
Qed.


(** The statements before line 51, run on a line that fits with the heap
    the constructor needs. *)
Lemma before_line51_runs (w : world) :
  w_stdin w <> [] -> (length (next_line w) < 50)%nat -> (100 <= w_avail w)%nat ->
  CppFixture.run CppFixture.before_line51
                 (CppFixture.Env CppFixture.api_secret_init None None) w =
  Done (CppFixture.Env CppFixture.api_secret_init
                       (Some {| CppFixture.buffer := Ptr (length (w_mem w)) |}) None)
       (World (after_line (w_stdin w))
              ((w_stdout w ++ lit "Enter data: ")
               ++ (select_prefix ++ lit "admin'; DROP TABLE users; --" ++ lit "'") ++ [LF])
              (((w_mem w ++ [Some (map Some (until_nul (next_line w)) ++ Some NUL
                                   :: drop (length (until_nul (next_line w)) + 1)
                                           (fresh_block 100))])
                ++ [None]) ++ [None])
              (w_avail w - 100) (w_shell w)).
Proof.
  intros Hne Hlen Hav.
  set (n := length (w_mem w)).
  set (o := {| CppFixture.buffer := Ptr n |}).
  set (w1 := World (w_stdin w) (w_stdout w) (w_mem w ++ [Some (fresh_block 100)])
                   (w_avail w - 100) (w_shell w)).
  assert (H48 : CppFixture.unsafeInput o w1 =
                Done tt (World (after_line (w_stdin w)) (w_stdout w ++ lit "Enter data: ")
                               ((w_mem w ++ [Some (map Some (until_nul (next_line w)) ++ Some NUL
                                                   :: drop (length (until_nul (next_line w)) + 1)
                                                           (fresh_block 100))])
                                ++ [None])
                               (w_avail w - 100) (w_shell w))).
  { rewrite (unsafeInput_runs w1 o n (fresh_block 100)).
    - cbn [w_mem w_stdin w_stdout w_avail w_shell w1]. unfold n.
      rewrite insert_pushed. reflexivity.
    - reflexivity.
    - apply lookup_pushed.
    - exact Hne.
    - exact Hlen.
    - change (next_line w1) with (next_line w).
      pose proof (until_nul_length (next_line w)).
      change (length (fresh_block 100)) with 100%nat. lia. }
  unfold CppFixture.before_line51. simpl CppFixture.run.
  erewrite bind_done.
  2:{ unfold CppFixture.line45.
      rewrite (bind_done _ _ _ _ _ (constructor_allocates w Hav)). reflexivity. }
  erewrite bind_done.
  2:{ unfold CppFixture.line48. simpl CppFixture.obj.
      erewrite bind_done by reflexivity. fold n o w1.
      rewrite (bind_done _ _ _ _ _ H48). reflexivity. }
  erewrite bind_done.
  2:{ unfold CppFixture.line49. simpl CppFixture.obj.
      erewrite bind_done by reflexivity.
      erewrite bind_done.
      2:{ apply (processData_runs _ _ (Lit "admin'; DROP TABLE users; --")
                                  (lit "admin'; DROP TABLE users; --")).
          - unfold chars_value. vm_compute. reflexivity.
          - vm_compute. lia. }
      reflexivity. }
  reflexivity.
Qed.


(** X13.  Given a line shorter than 50 bytes and 100 bytes of heap, the C++
    program runs up to the division of line 53 and stops there.  By then it
    has written the prompt, the query with the literal of line 49 copied
    into it unescaped, and the secret; the line with ["Result: "] is never
    written.  The block of the constructor is still allocated and holds the
    line typed: nothing releases it.  No command was handed to the shell. *)
Theorem cpp_program_reaches_the_division (input : bytes) (budget : nat) :
  input <> [] -> (length (take_line input) < 50)%nat -> (100 <= budget)%nat ->
  exists w',
    CppFixture.program (initial_world input budget) = Fault DivisionByZero w'
    /\ w_stdout w'
       = lit "Enter data: SELECT * FROM users WHERE name = 'admin'; DROP TABLE users; --'\nAPI Secret: sk-abc123456789\n"
    /\ w_stdin w' = after_line input
    /\ holds w' (Ptr 0) (until_nul (take_line input))
    /\ w_avail w' = (budget - 100)%nat
    /\ w_shell w' = [].
Proof.
  intros Hne Hlen Hav. eexists. split.
  - unfold CppFixture.program.
    apply (main_from_line51 _ _ _ _ (before_line51_runs (initial_world input budget) Hne Hlen Hav)).
  - split; [reflexivity|]. split; [reflexivity|].
    split; [|split; reflexivity].
    eexists. split; [reflexivity|].
    apply (cstring_holds (until_nul (take_line input))). apply until_nul_no_nul.
Qed.

Lemma cpp_program_reaches_witness :
  exists w',
    CppFixture.program (initial_world (lit "bob\n") 128) = Fault DivisionByZero w'
    /\ holds w' (Ptr 0) (lit "bob").
Proof.
  destruct (cpp_program_reaches_the_division (lit "bob\n") 128) as (w' & Hrun & _ & _ & Hh & _).
  - discriminate.
  - vm_compute. lia.
  - lia.
  - exists w'. split; [exact Hrun | exact Hh].
Defined.


(** ** The C program as a whole *)

